(** * AC-Simulator: kinetics, RK4 integrator and simulation clock

    A shallow embedding of [atmos-script.js]: the rate-constant model
    ([arrhenius], [calculateJValue], [getRateConstant]), the right-hand side
    of the chemical mechanism ([calculateRates]), the fourth-order
    Runge-Kutta step with its positivity clamp ([rk4Step]) and the
    simulation control functions ([stepSimulation], [runSimulation],
    [resetSimulation], ...), followed by the properties proved of them.

    Numbers.  A finite JavaScript number is modelled by a real number:
    [+ - * /] are the field operations, [Math.exp], [Math.cos] and [Math.PI]
    are [exp], [cos] and [PI], [Math.max] and [Math.min] are [Rmax] and
    [Rmin].  The rounding of doubles and their overflow (for instance of
    [Math.exp] below 0.31 K) are outside the model.  The real-number
    functions are the script wherever it does not divide by zero.  The
    kinetics and the Runge-Kutta step divide by [R * T], so they are
    embedded a second time in the module [Ext], over numbers that are
    finite, [Infinity], [-Infinity] or [NaN], with the arithmetic
    JavaScript gives these.  For [T <> 0] the two embeddings agree
    ([Ext_rk4Step_finite]); at [T = 0] the step returns [NaN]
    ([Ext_rk4Step_NaN]).  The statements about the other functions carry
    the hypotheses that keep their singular points out: a positive step
    size in [runSimulation], a concentration above -1 under the logarithm
    of [nodeSize].  The one [NaN] the script can produce in finite
    arithmetic (a property inherited from [Object.prototype] used as a
    parameter record in [calculateJValue]) is the value [JSNaN].

    Objects.  An object with one number per species key is a function from
    [Species]; the object literals that are read with an arbitrary string
    key ([rates], [jValues], [presets]) are association lists, and a read
    that misses the own properties falls through to [Object.prototype]. *)

From Stdlib Require Import Reals Lra Lia ZArith List String Bool.
Import ListNotations.

Local Open Scope string_scope.
Local Open Scope R_scope.

(** ** JavaScript values and the [Math] functions used by the script *)

Module Js.

Inductive JSValue : Type :=
| JSNumber (x : R)        (* a finite number *)
| JSNaN                   (* the number NaN *)
| JSUndefined             (* undefined *)
| JSObject (name : string). (* an object or function, named by the
                               property of Object.prototype it is read from *)

(** ToBoolean: [0] and [NaN] and [undefined] are falsy, objects are truthy. *)
Definition truthy (v : JSValue) : bool :=
  match v with
  | JSNumber x => if Req_dec_T x 0 then false else true
  | JSNaN => false
  | JSUndefined => false
  | JSObject _ => true
  end.

(** [a || b] *)
Definition js_or (a b : JSValue) : JSValue :=
  if truthy a then a else b.

(** Own properties of an object literal, in the order they are written. *)
Fixpoint own_property {A : Type} (obj : list (string * A)) (key : string)
  : option A :=
  match obj with
  | [] => None
  | (k, v) :: rest => if String.eqb k key then Some v else own_property rest key
  end.

(** The properties every object literal inherits from [Object.prototype]
    (ECMA-262, 20.1.3 and B.2.2). *)
Definition Object_prototype_properties : list string :=
  [ "constructor"; "__defineGetter__"; "__defineSetter__"; "hasOwnProperty";
    "__lookupGetter__"; "__lookupSetter__"; "isPrototypeOf";
    "propertyIsEnumerable"; "toString"; "valueOf"; "__proto__";
    "toLocaleString" ].

Definition inherited (key : string) : bool :=
  existsb (String.eqb key) Object_prototype_properties.

(** [obj[key]] for an object literal whose own properties hold values. *)
Definition get_property (obj : list (string * JSValue)) (key : string)
  : JSValue :=
  match own_property obj key with
  | Some v => v
  | None => if inherited key then JSObject key else JSUndefined
  end.

(** [Math.pow(x, y)] for a base [x > 0], and for [x = 0] with [y >= 0]
    ([Math.pow(0, y)] is [0] for [y > 0] and [1] for [y = 0]).  A negative
    base, or [0] raised to a negative power, gives [NaN] or [Infinity] in
    the script and is not covered.  [calculateJValue] calls it with the
    base [Math.max(0, cos ..)] and the exponents 1.0, 1.5 and 1.2. *)
Definition Math_pow (x y : R) : R :=
  if Req_dec_T x 0 then (if Req_dec_T y 0 then 1 else 0) else Rpower x y.

(** [Math.floor] *)
Definition Math_floor (x : R) : Z := Int_part x.

(** Truncation toward zero and the remainder operator [a % b], which takes
    the sign of the dividend. *)
Definition trunc (x : R) : Z :=
  if Rle_dec 0 x then Int_part x else (- Int_part (- x))%Z.

Definition js_rem (a b : R) : R := a - b * IZR (trunc (a / b)).

End Js.
Import Js.

(** ** Species and concentration vectors *)

(** The keys of [SPECIES], in declaration order. *)
Inductive Species : Type :=
| CH4 | CO | CO2 | OH | HO2 | O3 | NO | NO2 | CH3O2 | CH2O.

Definition Species_eq_dec (a b : Species) : {a = b} + {a <> b}.
Proof. decide equality. Defined.

(** [Object.keys(SPECIES)] *)
Definition SPECIES_keys : list Species :=
  [CH4; CO; CO2; OH; HO2; O3; NO; NO2; CH3O2; CH2O].

(** An object with one number per species key: [c sp] is [c[sp]]. *)
Definition Vec : Type := Species -> R.

(** [obj[sp] = v] on such an object. *)
Definition upd (obj : Vec) (sp : Species) (v : R) : Vec :=
  fun sp' => if Species_eq_dec sp sp' then v else obj sp'.

(** [SPECIES[sp].initial] *)
Definition SPECIES_initial : Vec :=
  fun sp =>
    match sp with
    | CH4 => 1800 | CO => 100 | CO2 => 400000 | OH => 0.1 | HO2 => 10
    | O3 => 40 | NO => 0.5 | NO2 => 0.5 | CH3O2 => 0.01 | CH2O => 1
    end.

(** The three literal vectors of [presets] in [initializeConcentrations]. *)
Definition preset_background : Vec :=
  fun sp =>
    match sp with
    | CH4 => 1800 | CO => 100 | CO2 => 400000 | OH => 0.1 | HO2 => 10
    | O3 => 40 | NO => 0.5 | NO2 => 0.5 | CH3O2 => 0.01 | CH2O => 1
    end.

Definition preset_polluted : Vec :=
  fun sp =>
    match sp with
    | CH4 => 2000 | CO => 500 | CO2 => 450000 | OH => 0.05 | HO2 => 20
    | O3 => 80 | NO => 5 | NO2 => 10 | CH3O2 => 0.1 | CH2O => 5
    end.

Definition preset_clean : Vec :=
  fun sp =>
    match sp with
    | CH4 => 1750 | CO => 50 | CO2 => 400000 | OH => 0.2 | HO2 => 5
    | O3 => 30 | NO => 0.1 | NO2 => 0.1 | CH3O2 => 0.005 | CH2O => 0.5
    end.

Definition presets : list (string * Vec) :=
  [ ("background", preset_background);
    ("polluted", preset_polluted);
    ("clean", preset_clean) ].

(** ** Chemical kinetics *)

Module Chem.

(** Physical constants.  The gas constant is [R] in the script. *)
Definition R_gas : R := 8.314.
Definition NA : R := 6.022e23.
Definition M_AIR : R := 28.97.

(** Arrhenius equation: k = A * exp(-Ea/RT).  This is the script for
    [T <> 0]; [Ext.arrhenius] below covers the division by zero at
    [T = 0]. *)
Definition arrhenius (A Ea T : R) : R :=
  A * exp (- Ea / (R_gas * T)).

Record JParams : Type := { j0 : R; n : R }.

Definition jValues : list (string * JParams) :=
  [ ("NO2_photolysis", {| j0 := 8e-3; n := 1.0 |});
    ("O3_to_O1D", {| j0 := 3e-5; n := 1.5 |});
    ("CH2O_photolysis", {| j0 := 5e-5; n := 1.2 |}) ].

(** Photolysis rate (J-value); [sza] in degrees.  For a name that is
    neither in [jValues] nor inherited, [params] is undefined and the
    function returns 0; for an inherited name [params] is an object
    without [j0] and [n], and the product is NaN. *)
Definition calculateJValue (reaction : string) (sza : R) : JSValue :=
  let szaRad := sza * PI / 180 in
  let cosSza := Rmax 0 (cos szaRad) in
  match own_property jValues reaction with
  | Some params => JSNumber (j0 params * Math_pow cosSza (n params))
  | None => if inherited reaction then JSNaN else JSNumber 0
  end.

(** The object literal [rates] of [getRateConstant]. *)
Definition rates (T P sza : R) : list (string * JSValue) :=
  let kb := 1.381e-23 in
  let M := P * 100 / (kb * T) * 1e-6 in
  [ ("CH4_OH", JSNumber (arrhenius 2.45e-12 (-1775) T));
    ("CH3_O2", JSNumber 1e-12);
    ("CH3O2_NO", JSNumber 2.8e-12);
    ("CH2O_OH", JSNumber 5.5e-12);
    ("CH2O_photolysis", calculateJValue "CH2O_photolysis" sza);
    ("CO_OH", JSNumber (arrhenius 1.5e-13 0 T * (1 + 0.6 * P / 1013)));
    ("NO_O3", JSNumber (arrhenius 3.0e-12 1500 T));
    ("NO2_photolysis", calculateJValue "NO2_photolysis" sza);
    ("NO2_OH", JSNumber (arrhenius 1.2e-11 0 T));
    ("HO2_NO", JSNumber (arrhenius 3.5e-12 (-250) T));
    ("O_O2_M", JSNumber (6e-34 * Math_pow (T / 300) (-2.4) * M));
    ("O3_photolysis", calculateJValue "O3_to_O1D" sza);
    ("O1D_H2O", JSNumber 1.63e-10);
    ("OH_HO2", JSNumber 4.8e-11);
    ("HO2_HO2", JSNumber 2.3e-13) ].

(** [return rates[reactionName] || 0] *)
Definition getRateConstant (reactionName : string) (T P sza : R) : JSValue :=
  js_or (get_property (rates T P sza) reactionName) (JSNumber 0).

(** The fifteen reaction names, the keys of [rates]. *)
Definition reaction_names : list string :=
  [ "CH4_OH"; "CH3_O2"; "CH3O2_NO"; "CH2O_OH"; "CH2O_photolysis";
    "CO_OH"; "NO_O3"; "NO2_photolysis"; "NO2_OH"; "HO2_NO";
    "O_O2_M"; "O3_photolysis"; "O1D_H2O"; "OH_HO2"; "HO2_HO2" ].

(** The number held by a value that is used in arithmetic.  It is applied
    below to the rate constants of the fifteen reactions only, which are
    numbers ([rate_constants_are_numbers]). *)
Definition number_of (v : JSValue) : R :=
  match v with
  | JSNumber x => x
  | _ => 0
  end.

(** Rates of change (ppb/s).  [k rxn] is [k[rxn]], filled from
    [getRateConstant] for the fifteen reaction names. *)
Definition calculateRates (c : Vec) (T P sza : R) : Vec :=
  let ppbToMolec := P * 100 / (R_gas * T) * NA * 1e-9 * 1e-6 in
  let k := fun rxn : string => number_of (getRateConstant rxn T P sza) in
  fun sp =>
    match sp with
    | CH4 => - k "CH4_OH" * c CH4 * c OH
    | CH3O2 => k "CH4_OH" * c CH4 * c OH - k "CH3O2_NO" * c CH3O2 * c NO
    | CH2O => k "CH3O2_NO" * c CH3O2 * c NO
              - k "CH2O_OH" * c CH2O * c OH
              - k "CH2O_photolysis" * c CH2O
    | CO => k "CH2O_OH" * c CH2O * c OH
            + k "CH2O_photolysis" * c CH2O
            - k "CO_OH" * c CO * c OH
    | CO2 => k "CO_OH" * c CO * c OH
    | OH => 2 * k "O3_photolysis" * c O3 * 0.2
            + k "HO2_NO" * c HO2 * c NO
            - k "CH4_OH" * c CH4 * c OH
            - k "CH2O_OH" * c CH2O * c OH
            - k "CO_OH" * c CO * c OH
            - k "NO2_OH" * c NO2 * c OH
            - k "OH_HO2" * c OH * c HO2
    | HO2 => k "CH3O2_NO" * c CH3O2 * c NO
             + k "CH2O_OH" * c CH2O * c OH
             - k "HO2_NO" * c HO2 * c NO
             - k "OH_HO2" * c OH * c HO2
             - k "HO2_HO2" * c HO2 * c HO2
    | NO => k "NO2_photolysis" * c NO2
            - k "NO_O3" * c NO * c O3
            - k "CH3O2_NO" * c CH3O2 * c NO
            - k "HO2_NO" * c HO2 * c NO
    | NO2 => k "NO_O3" * c NO * c O3
             + k "CH3O2_NO" * c CH3O2 * c NO
             + k "HO2_NO" * c HO2 * c NO
             - k "NO2_photolysis" * c NO2
             - k "NO2_OH" * c NO2 * c OH
    | O3 => k "NO2_photolysis" * c NO2
            - k "NO_O3" * c NO * c O3
            - k "O3_photolysis" * c O3
    end.

End Chem.
Import Chem.

(** ** Numerical solver (RK4) *)

Module Integrator.

(** [state.emissions]: ppb/day for CH4 and CO. *)
Record Emissions : Type := { em_CH4 : R; em_CO : R }.

(** The inner function of [rk4Step]: it updates [dcdt] in place and
    returns it. *)
Definition addEmissions (emissions : Emissions) (dcdt : Vec) (dt : R) : Vec :=
  let dcdt := upd dcdt CH4 (dcdt CH4 + em_CH4 emissions / 86400) in
  let dcdt := upd dcdt CO (dcdt CO + em_CO emissions / 86400) in
  dcdt.

(** One Runge-Kutta step.  Each [Object.keys(c).forEach(sp => ...)] fills a
    fresh object at every key of [c].  This is the script where every
    slope is finite; [Ext.rk4Step] below has [NaN] and the infinities. *)
Definition rk4Step (c : Vec) (dt T P sza : R) (emissions : Emissions) : Vec :=
  (* k1 *)
  let k1 := calculateRates c T P sza in
  let k1 := addEmissions emissions k1 dt in
  (* k2 *)
  let c2 : Vec := fun sp => Rmax 0 (c sp + 0.5 * dt * k1 sp) in
  let k2 := calculateRates c2 T P sza in
  let k2 := addEmissions emissions k2 dt in
  (* k3 *)
  let c3 : Vec := fun sp => Rmax 0 (c sp + 0.5 * dt * k2 sp) in
  let k3 := calculateRates c3 T P sza in
  let k3 := addEmissions emissions k3 dt in
  (* k4 *)
  let c4 : Vec := fun sp => Rmax 0 (c sp + dt * k3 sp) in
  let k4 := calculateRates c4 T P sza in
  let k4 := addEmissions emissions k4 dt in
  (* Update *)
  let cNew : Vec :=
    fun sp => Rmax 0 (c sp + dt / 6 * (k1 sp + 2 * k2 sp + 2 * k3 sp + k4 sp)) in
  cNew.

End Integrator.
Import Integrator.

(** The step as the specification writes it, with vector operations:
    [k1 = RHS(c) + e], [k2 = RHS(clamp(c + dt/2 k1)) + e],
    [k3 = RHS(clamp(c + dt/2 k2)) + e], [k4 = RHS(clamp(c + dt k3)) + e],
    [next = clamp(c + dt/6 (k1 + 2 k2 + 2 k3 + k4))]. *)

Module StepSpec.

Definition vadd (u v : Vec) : Vec := fun sp => u sp + v sp.
Definition vscale (a : R) (v : Vec) : Vec := fun sp => a * v sp.

(** [clamp(v) = max(0, v)], element-wise. *)
Definition clamp (v : Vec) : Vec := fun sp => Rmax 0 (v sp).

(** The emission term: [rate / 86400] for CH4 and CO, nothing elsewhere. *)
Definition emission_term (emissions : Emissions) : Vec :=
  fun sp =>
    match sp with
    | CH4 => em_CH4 emissions / 86400
    | CO => em_CO emissions / 86400
    | _ => 0
    end.

Definition stepOne (c : Vec) (dt T P sza : R) (emissions : Emissions) : Vec :=
  let RHS := fun x : Vec => calculateRates x T P sza in
  let e := emission_term emissions in
  let k1 := vadd (RHS c) e in
  let k2 := vadd (RHS (clamp (vadd c (vscale (dt / 2) k1)))) e in
  let k3 := vadd (RHS (clamp (vadd c (vscale (dt / 2) k2)))) e in
  let k4 := vadd (RHS (clamp (vadd c (vscale dt k3)))) e in
  clamp (vadd c (vscale (dt / 6)
                   (vadd (vadd (vadd k1 (vscale 2 k2)) (vscale 2 k3)) k4))).

End StepSpec.

(** ** The kinetics and the step with NaN and the infinities *)

Module Ext.

(** A JavaScript number: a finite number, [Infinity], [-Infinity] or [NaN].
    The finite numbers are real numbers, and a zero is the zero [+0]. *)
Inductive Num : Type :=
| Fin (x : R)
| PInf
| NInf
| NaN.

(** [-a] *)
Definition neg (a : Num) : Num :=
  match a with
  | Fin x => Fin (- x)
  | PInf => NInf
  | NInf => PInf
  | NaN => NaN
  end.

(** [a + b]: [Infinity + -Infinity] is [NaN]. *)
Definition add (a b : Num) : Num :=
  match a, b with
  | NaN, _ => NaN
  | _, NaN => NaN
  | PInf, NInf => NaN
  | NInf, PInf => NaN
  | PInf, _ => PInf
  | _, PInf => PInf
  | NInf, _ => NInf
  | _, NInf => NInf
  | Fin x, Fin y => Fin (x + y)
  end.

(** [a - b] *)
Definition sub (a b : Num) : Num := add a (neg b).

(** [x * Infinity] for a finite [x], and [x * -Infinity] when [positive] is
    [false]: the sign of [x] decides, and [0 * Infinity] is [NaN]. *)
Definition scale_inf (positive : bool) (x : R) : Num :=
  if Rlt_dec 0 x then (if positive then PInf else NInf)
  else if Rlt_dec x 0 then (if positive then NInf else PInf)
  else NaN.

(** [a * b] *)
Definition mul (a b : Num) : Num :=
  match a, b with
  | NaN, _ => NaN
  | _, NaN => NaN
  | Fin x, Fin y => Fin (x * y)
  | Fin x, PInf => scale_inf true x
  | PInf, Fin x => scale_inf true x
  | Fin x, NInf => scale_inf false x
  | NInf, Fin x => scale_inf false x
  | PInf, PInf => PInf
  | NInf, NInf => PInf
  | PInf, NInf => NInf
  | NInf, PInf => NInf
  end.

(** [a / b]: a finite [x / 0] is [Infinity], [-Infinity] or (for [0 / 0])
    [NaN]. *)
Definition div (a b : Num) : Num :=
  match a, b with
  | NaN, _ => NaN
  | _, NaN => NaN
  | Fin x, Fin y => if Req_dec_T y 0 then scale_inf true x else Fin (x / y)
  | Fin _, _ => Fin 0
  | PInf, Fin y => if Rlt_dec y 0 then NInf else PInf
  | NInf, Fin y => if Rlt_dec y 0 then PInf else NInf
  | _, _ => NaN
  end.

(** [Math.max(a, b)]: [NaN] when either argument is. *)
Definition Math_max (a b : Num) : Num :=
  match a, b with
  | NaN, _ => NaN
  | _, NaN => NaN
  | PInf, _ => PInf
  | _, PInf => PInf
  | NInf, y => y
  | x, NInf => x
  | Fin x, Fin y => Fin (Rmax x y)
  end.

(** [Math.exp(a)] *)
Definition Math_exp (a : Num) : Num :=
  match a with
  | Fin x => Fin (exp x)
  | PInf => PInf
  | NInf => Fin 0
  | NaN => NaN
  end.

(** [Math.pow(x, y)] for finite [x] and [y]: [Infinity] for [0] raised to a
    negative power, [NaN] for a negative base with an exponent that is no
    integer. *)
Definition Math_pow (x y : R) : Num :=
  if Rlt_dec 0 x then Fin (Rpower x y)
  else if Req_dec_T x 0 then
    (if Rlt_dec 0 y then Fin 0 else if Req_dec_T y 0 then Fin 1 else PInf)
  else
    (if Req_dec_T (IZR (Int_part y)) y then Fin (powerRZ x (Int_part y))
     else NaN).

(** [a >= 0], which is false of [NaN]. *)
Definition nonnegative (a : Num) : Prop :=
  match a with
  | Fin x => 0 <= x
  | PInf => True
  | NInf => False
  | NaN => False
  end.

Declare Scope num_scope.
Delimit Scope num_scope with num.
Bind Scope num_scope with Num.
Infix "+" := add : num_scope.
Infix "-" := sub : num_scope.
Infix "*" := mul : num_scope.
Infix "/" := div : num_scope.
Notation "- a" := (neg a) : num_scope.

(** What a property read and [||] can produce. *)
Inductive Value : Type :=
| VNum (a : Num)
| VUndefined
| VObject (name : string).

(** ToBoolean: [0], [NaN] and [undefined] are falsy; the infinities and
    objects are truthy. *)
Definition truthy (v : Value) : bool :=
  match v with
  | VNum (Fin x) => if Req_dec_T x 0 then false else true
  | VNum NaN => false
  | VNum _ => true
  | VUndefined => false
  | VObject _ => true
  end.

(** [a || b] *)
Definition js_or (a b : Value) : Value :=
  if truthy a then a else b.

(** [obj[key]] for an object literal whose own properties hold numbers. *)
Definition get_property (obj : list (string * Num)) (key : string) : Value :=
  match own_property obj key with
  | Some a => VNum a
  | None => if inherited key then VObject key else VUndefined
  end.

(** ToNumber, applied when a value is used in arithmetic. *)
Definition ToNumber (v : Value) : Num :=
  match v with
  | VNum a => a
  | _ => NaN
  end.

(** The number [calculateJValue] returns.  Its arithmetic has no singular
    point for a finite [sza]: the base of [Math.pow] is [Math.max(0, ..)]
    and the exponents are positive. *)
Definition number (v : JSValue) : Num :=
  match v with
  | JSNumber x => Fin x
  | _ => NaN
  end.

(** Arrhenius equation: k = A * exp(-Ea/RT) *)
Definition arrhenius (A Ea T : R) : Num :=
  (Fin A * Math_exp (Fin (- Ea) / Fin (R_gas * T)))%num.

(** The object literal [rates] of [getRateConstant]. *)
Definition rates (T P sza : R) : list (string * Num) :=
  let kb := 1.381e-23 in
  let M := (Fin (P * 100) / Fin (kb * T) * Fin 1e-6)%num in
  [ ("CH4_OH", arrhenius 2.45e-12 (-1775) T);
    ("CH3_O2", Fin 1e-12);
    ("CH3O2_NO", Fin 2.8e-12);
    ("CH2O_OH", Fin 5.5e-12);
    ("CH2O_photolysis", number (calculateJValue "CH2O_photolysis" sza));
    ("CO_OH", (arrhenius 1.5e-13 0 T * Fin (1 + 0.6 * P / 1013))%num);
    ("NO_O3", arrhenius 3.0e-12 1500 T);
    ("NO2_photolysis", number (calculateJValue "NO2_photolysis" sza));
    ("NO2_OH", arrhenius 1.2e-11 0 T);
    ("HO2_NO", arrhenius 3.5e-12 (-250) T);
    ("O_O2_M", (Fin 6e-34 * Math_pow (T / 300) (-2.4) * M)%num);
    ("O3_photolysis", number (calculateJValue "O3_to_O1D" sza));
    ("O1D_H2O", Fin 1.63e-10);
    ("OH_HO2", Fin 4.8e-11);
    ("HO2_HO2", Fin 2.3e-13) ].

(** [return rates[reactionName] || 0]: [NaN || 0] is [0]. *)
Definition getRateConstant (reactionName : string) (T P sza : R) : Value :=
  js_or (get_property (rates T P sza) reactionName) (VNum (Fin 0)).

(** An object with one number per species key. *)
Definition NVec : Type := Species -> Num.

Definition upd (obj : NVec) (sp : Species) (v : Num) : NVec :=
  fun sp' => if Species_eq_dec sp sp' then v else obj sp'.

(** A vector of finite numbers. *)
Definition lift (c : Vec) : NVec := fun sp => Fin (c sp).

(** Rates of change (ppb/s).  [k rxn] is [k[rxn]], filled from
    [getRateConstant] for the fifteen reaction names; [ppbToMolec] is
    computed and not used. *)
Definition calculateRates (c : NVec) (T P sza : R) : NVec :=
  let ppbToMolec :=
    (Fin (P * 100) / Fin (R_gas * T) * Fin NA * Fin 1e-9 * Fin 1e-6)%num in
  let k := fun rxn : string => ToNumber (getRateConstant rxn T P sza) in
  fun sp =>
    (match sp with
     | CH4 => - k "CH4_OH" * c CH4 * c OH
     | CH3O2 => k "CH4_OH" * c CH4 * c OH - k "CH3O2_NO" * c CH3O2 * c NO
     | CH2O => k "CH3O2_NO" * c CH3O2 * c NO
               - k "CH2O_OH" * c CH2O * c OH
               - k "CH2O_photolysis" * c CH2O
     | CO => k "CH2O_OH" * c CH2O * c OH
             + k "CH2O_photolysis" * c CH2O
             - k "CO_OH" * c CO * c OH
     | CO2 => k "CO_OH" * c CO * c OH
     | OH => Fin 2 * k "O3_photolysis" * c O3 * Fin 0.2
             + k "HO2_NO" * c HO2 * c NO
             - k "CH4_OH" * c CH4 * c OH
             - k "CH2O_OH" * c CH2O * c OH
             - k "CO_OH" * c CO * c OH
             - k "NO2_OH" * c NO2 * c OH
             - k "OH_HO2" * c OH * c HO2
     | HO2 => k "CH3O2_NO" * c CH3O2 * c NO
              + k "CH2O_OH" * c CH2O * c OH
              - k "HO2_NO" * c HO2 * c NO
              - k "OH_HO2" * c OH * c HO2
              - k "HO2_HO2" * c HO2 * c HO2
     | NO => k "NO2_photolysis" * c NO2
             - k "NO_O3" * c NO * c O3
             - k "CH3O2_NO" * c CH3O2 * c NO
             - k "HO2_NO" * c HO2 * c NO
     | NO2 => k "NO_O3" * c NO * c O3
              + k "CH3O2_NO" * c CH3O2 * c NO
              + k "HO2_NO" * c HO2 * c NO
              - k "NO2_photolysis" * c NO2
              - k "NO2_OH" * c NO2 * c OH
     | O3 => k "NO2_photolysis" * c NO2
             - k "NO_O3" * c NO * c O3
             - k "O3_photolysis" * c O3
     end)%num.

(** The inner function of [rk4Step]. *)
Definition addEmissions (emissions : Emissions) (dcdt : NVec) (dt : R) : NVec :=
  let dcdt := upd dcdt CH4 (dcdt CH4 + Fin (em_CH4 emissions / 86400))%num in
  let dcdt := upd dcdt CO (dcdt CO + Fin (em_CO emissions / 86400))%num in
  dcdt.

(** One Runge-Kutta step. *)
Definition rk4Step (c : NVec) (dt T P sza : R) (emissions : Emissions) : NVec :=
  (* k1 *)
  let k1 := calculateRates c T P sza in
  let k1 := addEmissions emissions k1 dt in
  (* k2 *)
  let c2 : NVec := fun sp => Math_max (Fin 0) (c sp + Fin (0.5 * dt) * k1 sp)%num in
  let k2 := calculateRates c2 T P sza in
  let k2 := addEmissions emissions k2 dt in
  (* k3 *)
  let c3 : NVec := fun sp => Math_max (Fin 0) (c sp + Fin (0.5 * dt) * k2 sp)%num in
  let k3 := calculateRates c3 T P sza in
  let k3 := addEmissions emissions k3 dt in
  (* k4 *)
  let c4 : NVec := fun sp => Math_max (Fin 0) (c sp + Fin dt * k3 sp)%num in
  let k4 := calculateRates c4 T P sza in
  let k4 := addEmissions emissions k4 dt in
  (* Update *)
  let cNew : NVec :=
    fun sp =>
      Math_max (Fin 0)
        (c sp + Fin (dt / 6) * (k1 sp + Fin 2 * k2 sp + Fin 2 * k3 sp + k4 sp))%num in
  cNew.

End Ext.

(** ** Simulation control *)

Module Sim.

(** The global [state] object. *)
Record State : Type := mkState {
  concentrations : Vec;
  time : R;                 (* seconds *)
  temperature : R;          (* K *)
  pressure : R;             (* hPa *)
  solarZenithAngle : R;     (* degrees *)
  isRunning : bool;
  diurnalCycle : bool;
  emissions : Emissions;
  noxLevel : R
}.

(** The global [timeSeriesData] object: the array [time] and one array per
    species in [concentrations]. *)
Record TimeSeriesData : Type := mkSeries {
  ts_time : list R;
  ts_concentrations : Species -> list R
}.

(** All the globals the control functions read and write. *)
Record World : Type := mkWorld {
  state : State;
  timeSeriesData : TimeSeriesData;
  animationFrameId : option nat;
  lastUpdateTime : R;
  simSpeedFactor : R;
  timeStepSize : R
}.

Definition set_state (w : World) (s : State) : World :=
  mkWorld s (timeSeriesData w) (animationFrameId w) (lastUpdateTime w)
          (simSpeedFactor w) (timeStepSize w).

Definition set_timeSeriesData (w : World) (ts : TimeSeriesData) : World :=
  mkWorld (state w) ts (animationFrameId w) (lastUpdateTime w)
          (simSpeedFactor w) (timeStepSize w).

Definition set_animationFrameId (w : World) (id : option nat) : World :=
  mkWorld (state w) (timeSeriesData w) id (lastUpdateTime w)
          (simSpeedFactor w) (timeStepSize w).

Definition set_lastUpdateTime (w : World) (t : R) : World :=
  mkWorld (state w) (timeSeriesData w) (animationFrameId w) t
          (simSpeedFactor w) (timeStepSize w).

Definition set_simSpeedFactor (w : World) (v : R) : World :=
  mkWorld (state w) (timeSeriesData w) (animationFrameId w) (lastUpdateTime w)
          v (timeStepSize w).

Definition set_timeStepSize (w : World) (v : R) : World :=
  mkWorld (state w) (timeSeriesData w) (animationFrameId w) (lastUpdateTime w)
          (simSpeedFactor w) v.

Definition set_concentrations (s : State) (c : Vec) : State :=
  mkState c (time s) (temperature s) (pressure s) (solarZenithAngle s)
          (isRunning s) (diurnalCycle s) (emissions s) (noxLevel s).

Definition set_time (s : State) (t : R) : State :=
  mkState (concentrations s) t (temperature s) (pressure s)
          (solarZenithAngle s) (isRunning s) (diurnalCycle s) (emissions s)
          (noxLevel s).

Definition set_temperature (s : State) (v : R) : State :=
  mkState (concentrations s) (time s) v (pressure s) (solarZenithAngle s)
          (isRunning s) (diurnalCycle s) (emissions s) (noxLevel s).

Definition set_pressure (s : State) (v : R) : State :=
  mkState (concentrations s) (time s) (temperature s) v (solarZenithAngle s)
          (isRunning s) (diurnalCycle s) (emissions s) (noxLevel s).

Definition set_solarZenithAngle (s : State) (v : R) : State :=
  mkState (concentrations s) (time s) (temperature s) (pressure s) v
          (isRunning s) (diurnalCycle s) (emissions s) (noxLevel s).

Definition set_isRunning (s : State) (b : bool) : State :=
  mkState (concentrations s) (time s) (temperature s) (pressure s)
          (solarZenithAngle s) b (diurnalCycle s) (emissions s) (noxLevel s).

Definition set_diurnalCycle (s : State) (b : bool) : State :=
  mkState (concentrations s) (time s) (temperature s) (pressure s)
          (solarZenithAngle s) (isRunning s) b (emissions s) (noxLevel s).

Definition set_emissions (s : State) (e : Emissions) : State :=
  mkState (concentrations s) (time s) (temperature s) (pressure s)
          (solarZenithAngle s) (isRunning s) (diurnalCycle s) e (noxLevel s).

Definition set_noxLevel (s : State) (v : R) : State :=
  mkState (concentrations s) (time s) (temperature s) (pressure s)
          (solarZenithAngle s) (isRunning s) (diurnalCycle s) (emissions s) v.

(** [initializeConcentrations(preset)].  [presets[preset] || presets.background]
    picks the named preset, or the background one for a name [presets]
    does not have.  The script calls it with the three preset names only;
    a name inherited from [Object.prototype] would store [undefined]
    concentrations, which [Vec] cannot hold, and is not covered.  Every
    species array of [timeSeriesData.concentrations] exists once the
    script has loaded, so the guarded assignment of an empty array does
    nothing. *)
Definition initializeConcentrations (preset : string) (w : World) : World :=
  let initialValues :=
    match own_property presets preset with
    | Some v => v
    | None => preset_background
    end in
  fold_left
    (fun w sp =>
       set_state w (set_concentrations (state w)
                      (upd (concentrations (state w)) sp (initialValues sp))))
    SPECIES_keys w.

Definition updateDiurnalCycle (s : State) : State :=
  if negb (diurnalCycle s) then s
  else
    (* Convert simulated time to hours *)
    let hours := js_rem (time s / 3600) 24 in
    (* SZA = 0 at noon, 90 at sunrise/sunset *)
    let sza := Rabs (12 - hours) * 7.5 in
    set_solarZenithAngle s (Rmin 90 sza).

(** [x >= y] as a boolean. *)
Definition Rgeb (x y : R) : bool := if Rge_dec x y then true else false.

(** [arr.push(v)] *)
Definition push (arr : list R) (v : R) : list R := arr ++ [v].

Definition stepSimulation (dt : R) (w : World) : World :=
  (* Update concentrations *)
  let s := state w in
  let s := set_concentrations s
             (rk4Step (concentrations s) dt (temperature s) (pressure s)
                      (solarZenithAngle s) (emissions s)) in
  (* Update time *)
  let s := set_time s (time s + dt) in
  (* Update diurnal cycle *)
  let s := updateDiurnalCycle s in
  let w := set_state w s in
  (* Store data (every 10 time steps to reduce memory) *)
  let ts := timeSeriesData w in
  if (Nat.eqb (List.length (ts_time ts)) 0
      || Rgeb (time s - nth (List.length (ts_time ts) - 1) (ts_time ts) 0) (dt * 10))%bool
  then
    let times := push (ts_time ts) (time s) in
    let series :=
      fold_left
        (fun (acc : Species -> list R) sp =>
           fun sp' => if Species_eq_dec sp sp'
                      then push (acc sp) (concentrations s sp)
                      else acc sp')
        SPECIES_keys (ts_concentrations ts) in
    set_timeSeriesData w (mkSeries times series)
  else w.

(** The [for] loop of [runSimulation]. *)
Fixpoint steps (numSteps : nat) (dt : R) (w : World) : World :=
  match numSteps with
  | O => w
  | S i => steps i dt (stepSimulation dt w)
  end.

(** [runSimulation()]: [currentTime] is what [Date.now()] returns and
    [frame] the handle [requestAnimationFrame] returns.  [updateUI] only
    reads the globals. *)
Definition runSimulation (currentTime : R) (frame : nat) (w : World) : World :=
  if negb (isRunning (state w)) then w
  else
    let elapsed := (currentTime - lastUpdateTime w) / 1000 * simSpeedFactor w in
    let w := set_lastUpdateTime w currentTime in
    (* Take multiple small steps for stability *)
    let numSteps := Z.max 1 (Math_floor (elapsed / timeStepSize w)) in
    let w := steps (Z.to_nat numSteps) (timeStepSize w) w in
    set_animationFrameId w (Some frame).

Definition startSimulation (now currentTime : R) (frame : nat) (w : World)
  : World :=
  if isRunning (state w) then w
  else
    let w := set_state w (set_isRunning (state w) true) in
    let w := set_lastUpdateTime w now in
    runSimulation currentTime frame w.

Definition pauseSimulation (w : World) : World :=
  let w := set_state w (set_isRunning (state w) false) in
  match animationFrameId w with
  | Some _ => set_animationFrameId w None
  | None => w
  end.

(** [resetSimulation()]; [updateUI] and [updateChart] only read. *)
Definition resetSimulation (w : World) : World :=
  let w := pauseSimulation w in
  let w := set_state w (set_time (state w) 0) in
  let w := set_state w (set_solarZenithAngle (state w) 0) in
  let w := set_timeSeriesData w
             (mkSeries [] (ts_concentrations (timeSeriesData w))) in
  let w :=
    fold_left
      (fun w sp =>
         set_timeSeriesData w
           (mkSeries (ts_time (timeSeriesData w))
              (fun sp' => if Species_eq_dec sp sp' then []
                          else ts_concentrations (timeSeriesData w) sp')))
      SPECIES_keys w in
  initializeConcentrations "background" w.

(** The globals once the script has been loaded: the initial [state] (its
    [concentrations] object is empty until the next line fills every key),
    the empty time series, and [initializeConcentrations('background')]. *)
Definition initial_world : World :=
  initializeConcentrations "background"
    (mkWorld
       (mkState (fun _ => 0) 0 298 1000 0 false true
                {| em_CH4 := 10; em_CO := 5 |} 1.0)
       (mkSeries [] (fun _ => []))
       None 0 1.0 60).

(** The three preset buttons and the names they pass. *)
Inductive PresetName : Type := Background | Polluted | Clean.

Definition preset_key (name : PresetName) : string :=
  match name with
  | Background => "background"
  | Polluted => "polluted"
  | Clean => "clean"
  end.

(** The input handlers that [setupControls] installs; [v] is what
    [parseFloat(e.target.value)] returns. *)
Inductive Control : Type :=
| SetSpeed (v : R)
| SetTimeStep (v : R)
| SetTemperature (v : R)
| SetPressure (v : R)
| SetSolarZenith (v : R)
| SetDiurnal (checked : bool)
| SetCH4Emission (v : R)
| SetCOEmission (v : R)
| SetNoxLevel (v : R)
| ClickPreset (name : PresetName).

Definition handle (ev : Control) (w : World) : World :=
  let s := state w in
  match ev with
  | SetSpeed v => set_simSpeedFactor w v
  | SetTimeStep v => set_timeStepSize w v
  | SetTemperature v => set_state w (set_temperature s v)
  | SetPressure v => set_state w (set_pressure s v)
  | SetSolarZenith v =>
      if negb (diurnalCycle s) then set_state w (set_solarZenithAngle s v)
      else w
  | SetDiurnal b => set_state w (set_diurnalCycle s b)
  | SetCH4Emission v =>
      set_state w (set_emissions s {| em_CH4 := v; em_CO := em_CO (emissions s) |})
  | SetCOEmission v =>
      set_state w (set_emissions s {| em_CH4 := em_CH4 (emissions s); em_CO := v |})
  | SetNoxLevel v =>
      let s := set_noxLevel s v in
      (* Adjust NO and NO2 concentrations *)
      let s := set_concentrations s (upd (concentrations s) NO (noxLevel s * 0.5)) in
      let s := set_concentrations s (upd (concentrations s) NO2 (noxLevel s * 0.5)) in
      set_state w s
  | ClickPreset name => initializeConcentrations (preset_key name) w
  end.

(** The worlds a run can reach when no step is shorter than [dmin]: the
    loaded script, then any interleaving of control inputs (the time-step
    slider among them), pause, reset, and of start, animation ticks and
    single steps taken while the step size is at least [dmin].  A run whose
    steps all have the size [dt] is the case [dmin = dt]. *)
Inductive reachable (dmin : R) : World -> Prop :=
| reach_init : reachable dmin initial_world
| reach_start now currentTime frame w :
    reachable dmin w -> dmin <= timeStepSize w ->
    reachable dmin (startSimulation now currentTime frame w)
| reach_tick currentTime frame w :
    reachable dmin w -> dmin <= timeStepSize w ->
    reachable dmin (runSimulation currentTime frame w)
| reach_step w :
    reachable dmin w -> dmin <= timeStepSize w ->
    reachable dmin (stepSimulation (timeStepSize w) w)
| reach_pause w :
    reachable dmin w -> reachable dmin (pauseSimulation w)
| reach_reset w :
    reachable dmin w -> reachable dmin (resetSimulation w)
| reach_control ev w :
    reachable dmin w -> reachable dmin (handle ev w).

(** Every two consecutive recorded times are at least [gap] apart. *)
Fixpoint spaced (gap : R) (times : list R) : Prop :=
  match times with
  | [] => True
  | t1 :: rest =>
      match rest with
      | [] => True
      | t2 :: _ => t2 - t1 >= gap
      end /\ spaced gap rest
  end.

End Sim.
Import Sim.

(** ** Definitions used by the proofs *)

(** The rate constants [calculateRates] reads, as one table, and the
    mechanism as a function of that table. *)
Record RateTable : Type := {
  kCH4_OH : R; kCH3O2_NO : R; kCH2O_OH : R; jCH2O : R; kCO_OH : R;
  kNO_O3 : R; jNO2 : R; kNO2_OH : R; kHO2_NO : R; jO3 : R;
  kOH_HO2 : R; kHO2_HO2 : R }.

Definition rate_table (T P sza : R) : RateTable :=
  let k := fun rxn : string => number_of (getRateConstant rxn T P sza) in
  {| kCH4_OH := k "CH4_OH"; kCH3O2_NO := k "CH3O2_NO"; kCH2O_OH := k "CH2O_OH";
     jCH2O := k "CH2O_photolysis"; kCO_OH := k "CO_OH"; kNO_O3 := k "NO_O3";
     jNO2 := k "NO2_photolysis"; kNO2_OH := k "NO2_OH"; kHO2_NO := k "HO2_NO";
     jO3 := k "O3_photolysis"; kOH_HO2 := k "OH_HO2"; kHO2_HO2 := k "HO2_HO2" |}.

Definition mechanism (k : RateTable) (c : Vec) : Vec :=
  fun sp =>
    match sp with
    | CH4 => - kCH4_OH k * c CH4 * c OH
    | CH3O2 => kCH4_OH k * c CH4 * c OH - kCH3O2_NO k * c CH3O2 * c NO
    | CH2O => kCH3O2_NO k * c CH3O2 * c NO
              - kCH2O_OH k * c CH2O * c OH
              - jCH2O k * c CH2O
    | CO => kCH2O_OH k * c CH2O * c OH
            + jCH2O k * c CH2O
            - kCO_OH k * c CO * c OH
    | CO2 => kCO_OH k * c CO * c OH
    | OH => 2 * jO3 k * c O3 * 0.2
            + kHO2_NO k * c HO2 * c NO
            - kCH4_OH k * c CH4 * c OH
            - kCH2O_OH k * c CH2O * c OH
            - kCO_OH k * c CO * c OH
            - kNO2_OH k * c NO2 * c OH
            - kOH_HO2 k * c OH * c HO2
    | HO2 => kCH3O2_NO k * c CH3O2 * c NO
             + kCH2O_OH k * c CH2O * c OH
             - kHO2_NO k * c HO2 * c NO
             - kOH_HO2 k * c OH * c HO2
             - kHO2_HO2 k * c HO2 * c HO2
    | NO => jNO2 k * c NO2
            - kNO_O3 k * c NO * c O3
            - kCH3O2_NO k * c CH3O2 * c NO
            - kHO2_NO k * c HO2 * c NO
    | NO2 => kNO_O3 k * c NO * c O3
             + kCH3O2_NO k * c CH3O2 * c NO
             + kHO2_NO k * c HO2 * c NO
             - jNO2 k * c NO2
             - kNO2_OH k * c NO2 * c OH
    | O3 => jNO2 k * c NO2
            - kNO_O3 k * c NO * c O3
            - jO3 k * c O3
    end.

(** Every entry of a vector is non-negative. *)
Definition nonneg (c : Vec) : Prop := forall sp, 0 <= c sp.

(** No emissions. *)
Definition no_emissions : Emissions := {| em_CH4 := 0; em_CO := 0 |}.

(** The carbon proxy of the specification. *)
Definition carbon_proxy (c : Vec) : R := c CH4 + c CO + c CO2.

(** The absolute values of the five reaction rates that move carbon from one
    species to the next: CH4 + OH, CH3O2 + NO, CH2O + OH, CH2O photolysis
    and CO + OH. *)
Definition carbon_fluxes (k : RateTable) (c : Vec) : R :=
  Rabs (kCH4_OH k * c CH4 * c OH)
  + Rabs (kCH3O2_NO k * c CH3O2 * c NO)
  + Rabs (kCH2O_OH k * c CH2O * c OH)
  + Rabs (jCH2O k * c CH2O)
  + Rabs (kCO_OH k * c CO * c OH).

(** Bounds on the rate constants that hold from 214 K on and for pressures
    between 0 and 100000 hPa, whatever the solar zenith angle. *)
Definition rates_bounded (k : RateTable) : Prop :=
  2.45e-12 <= kCH4_OH k <= 7.35e-12 /\
  kCH3O2_NO k = 2.8e-12 /\
  kCH2O_OH k = 5.5e-12 /\
  0 <= jCH2O k <= 5e-5 /\
  0 <= kCO_OH k <= 1e-11 /\
  0 <= kNO_O3 k <= 3e-12 /\
  0 <= jNO2 k <= 8e-3 /\
  kNO2_OH k = 1.2e-11 /\
  0 <= kHO2_NO k <= 1.05e-11 /\
  0 <= jO3 k <= 3e-5 /\
  kOH_HO2 k = 4.8e-11 /\
  kHO2_HO2 k = 2.3e-13.

(** A box around the background preset that contains every stage of a step
    of at most 600 s from that preset, and the slopes the mechanism has on
    that box. *)
Definition inbox (c : Vec) : Prop :=
  1799 <= c CH4 <= 1801 /\
  99 <= c CO <= 101 /\
  399999 <= c CO2 <= 400001 /\
  0.09 <= c OH <= 0.5 /\
  9 <= c HO2 <= 11 /\
  38 <= c O3 <= 44 /\
  0.4 <= c NO <= 4 /\
  0 <= c NO2 <= 0.6 /\
  0 <= c CH3O2 <= 0.02 /\
  0.9 <= c CH2O <= 1.1.

Definition slopes_bounded (d : Vec) : Prop :=
  -1e-8 <= d CH4 <= -3e-10 /\
  -1e-8 <= d CO <= 1e-4 /\
  0 <= d CO2 <= 1e-8 /\
  -1e-8 <= d OH <= 6e-4 /\
  -1e-8 <= d HO2 <= 1e-8 /\
  -2e-3 <= d O3 <= 5e-3 /\
  -1e-8 <= d NO <= 5e-3 /\
  -5e-3 <= d NO2 <= 1e-8 /\
  3e-10 <= d CH3O2 <= 1e-8 /\
  -1e-4 <= d CH2O <= 1e-8.

(** The slope [rk4Step] uses at a point (the rates plus the emissions) and
    the three intermediate points of a step. *)
Section Stages.
Variables (c : Vec) (dt T P sza : R) (emissions : Emissions).

Definition slope (x : Vec) : Vec :=
  addEmissions emissions (calculateRates x T P sza) dt.

Definition stage (h : R) (d : Vec) : Vec :=
  fun sp => Rmax 0 (c sp + h * d sp).

Definition stage2 : Vec := stage (0.5 * dt) (slope c).
Definition stage3 : Vec := stage (0.5 * dt) (slope stage2).
Definition stage4 : Vec := stage dt (slope stage3).
End Stages.

(** ** What the display reads from the state *)

Module Ui.

(** [Math.log10(x)] for [x > 0]. *)
Definition Math_log10 (x : R) : R := ln x / ln 10.

(** [updateUI]: [const isDaytime = state.solarZenithAngle < 90], which picks
    the sun or the moon icon and the text Daytime or Nighttime. *)
Definition isDaytime (s : State) : bool :=
  if Rlt_dec (solarZenithAngle s) 90 then true else false.

(** [updateNetworkVisualization]: the radius of the node of a species,
    [Math.max(15, Math.min(30, Math.log10(conc + 1) * 5))] with
    [conc = state.concentrations[sp] || 0] ([|| 0] leaves a number as it
    is).  The logarithm needs [conc > -1]. *)
Definition nodeSize (s : State) (sp : Species) : R :=
  let conc := concentrations s sp in
  Rmax 15 (Rmin 30 (Math_log10 (conc + 1) * 5)).

End Ui.
Import Ui.

(** How far the clock is past the last recorded sample, capped at nine
    steps of size [dt]; nine steps when nothing has been recorded. *)
Definition sample_slack (dt : R) (w : World) : R :=
  match ts_time (timeSeriesData w) with
  | [] => 9 * dt
  | _ :: _ => Rmin (time (state w) - last (ts_time (timeSeriesData w)) 0) (9 * dt)
  end.

(** * Properties *)

(** ** Values, property reads and rate constants *)

Lemma js_or_number x : js_or (JSNumber x) (JSNumber 0) = JSNumber x.
Proof.
  unfold js_or, truthy. destruct (Req_dec_T x 0) as [->|]; reflexivity.
Qed.

Lemma own_property_rates_In T P sza name v :
  own_property (rates T P sza) name = Some v -> In name reaction_names.
Proof.
  unfold rates, reaction_names. cbn [own_property].
  repeat match goal with
         | |- (if String.eqb ?k name then _ else _) = _ -> _ =>
             destruct (String.eqb_spec k name) as [<-|_];
             [intros _; cbn [In]; tauto|]
         end.
  discriminate.
Qed.

(** What [getRateConstant] returns for a name that is no reaction and that
    object literals do not inherit. *)
Lemma getRateConstant_unknown name T P sza :
  ~ In name reaction_names -> inherited name = false ->
  getRateConstant name T P sza = JSNumber 0.
Proof.
  intros Hname Hinh. unfold getRateConstant, get_property.
  destruct (own_property (rates T P sza) name) as [v|] eqn:E.
  - exfalso. apply Hname. eapply own_property_rates_In; eassumption.
  - rewrite Hinh. reflexivity.
Qed.

Lemma calculateJValue_own r sza p :
  own_property jValues r = Some p ->
  calculateJValue r sza =
  JSNumber (j0 p * Math_pow (Rmax 0 (cos (sza * PI / 180))) (n p)).
Proof. intros H. unfold calculateJValue. rewrite H. reflexivity. Qed.

Lemma calculateJValue_number r sza :
  In r ["NO2_photolysis"; "O3_to_O1D"; "CH2O_photolysis"] ->
  exists p, own_property jValues r = Some p /\ 0 < j0 p /\ 0 < n p /\
            calculateJValue r sza =
            JSNumber (j0 p * Math_pow (Rmax 0 (cos (sza * PI / 180))) (n p)).
Proof.
  intros [<-|[<-|[<-|[]]]].
  - exists {| j0 := 8e-3; n := 1.0 |}. cbn [j0 n]. repeat split; try lra.
  - exists {| j0 := 3e-5; n := 1.5 |}. cbn [j0 n]. repeat split; try lra.
  - exists {| j0 := 5e-5; n := 1.2 |}. cbn [j0 n]. repeat split; try lra.
Qed.

(** The table read by [calculateRates], entry by entry. *)
Lemma rate_table_values T P sza :
  let J := fun j0 n => j0 * Math_pow (Rmax 0 (cos (sza * PI / 180))) n in
  kCH4_OH (rate_table T P sza) = arrhenius 2.45e-12 (-1775) T /\
  kCH3O2_NO (rate_table T P sza) = 2.8e-12 /\
  kCH2O_OH (rate_table T P sza) = 5.5e-12 /\
  jCH2O (rate_table T P sza) = J 5e-5 1.2 /\
  kCO_OH (rate_table T P sza) = arrhenius 1.5e-13 0 T * (1 + 0.6 * P / 1013) /\
  kNO_O3 (rate_table T P sza) = arrhenius 3.0e-12 1500 T /\
  jNO2 (rate_table T P sza) = J 8e-3 1.0 /\
  kNO2_OH (rate_table T P sza) = arrhenius 1.2e-11 0 T /\
  kHO2_NO (rate_table T P sza) = arrhenius 3.5e-12 (-250) T /\
  jO3 (rate_table T P sza) = J 3e-5 1.5 /\
  kOH_HO2 (rate_table T P sza) = 4.8e-11 /\
  kHO2_HO2 (rate_table T P sza) = 2.3e-13.
Proof.
  intros J.
  assert (E : forall name v, get_property (rates T P sza) name = JSNumber v ->
                             number_of (getRateConstant name T P sza) = v).
  { intros name v Hv. unfold getRateConstant. rewrite Hv, js_or_number.
    reflexivity. }
  repeat split; apply E; try reflexivity.
Qed.

(** The fifteen rate constants are numbers. *)
Lemma rate_constants_are_numbers name T P sza :
  In name reaction_names ->
  exists x, getRateConstant name T P sza = JSNumber x.
Proof.
  unfold reaction_names. cbn [In]. intros H.
  repeat (destruct H as [<-|H];
          [eexists; unfold getRateConstant;
           match goal with
           | |- js_or ?v _ = _ =>
               let v' := eval cbv [get_property own_property rates String.eqb
                                     Ascii.eqb Bool.eqb calculateJValue jValues]
                         in v in
               change v with v'
           end; apply js_or_number|]).
  destruct H.
Qed.

Lemma calculateRates_mechanism c T P sza :
  calculateRates c T P sza = mechanism (rate_table T P sza) c.
Proof. reflexivity. Qed.

(** ** Unknown reaction identifiers *)

(** C7 (the code at the failing input).  ["toString"] is none of the fifteen
    reaction names, yet [getRateConstant] does not return 0 for it: the
    read [rates["toString"]] finds the method every object literal inherits,
    which is truthy, so [|| 0] lets it through. *)
Theorem getRateConstant_inherited_name T P sza :
  ~ In "toString" reaction_names /\
  getRateConstant "toString" T P sza = JSObject "toString" /\
  getRateConstant "toString" T P sza <> JSNumber 0.
Proof.
  assert (E : getRateConstant "toString" T P sza = JSObject "toString")
    by reflexivity.
  split; [|split].
  - unfold reaction_names. cbn [In]. intros H.
    repeat (destruct H as [H|H]; [discriminate H|]). exact H.
  - exact E.
  - rewrite E. discriminate.
Qed.

(** ** The right-hand side *)

Lemma calculateRates_ext c c' T P sza :
  (forall sp, c sp = c' sp) ->
  forall sp, calculateRates c T P sza sp = calculateRates c' T P sza sp.
Proof.
  intros H sp. rewrite !calculateRates_mechanism.
  destruct sp; unfold mechanism; rewrite !H; reflexivity.
Qed.

(** The formulas of the five carbon derivatives cancel term by term: every
    loss of one species is the gain of the next.  This is an identity of
    the formulas, in exact arithmetic; the script rounds every product and
    every sum, so the five doubles it returns need not sum to 0. *)
Lemma mechanism_carbon_balance k (x : Vec) :
  mechanism k x CH4 + mechanism k x CH3O2 + mechanism k x CH2O
  + mechanism k x CO + mechanism k x CO2 = 0.
Proof. unfold mechanism. ring. Qed.

(** ** The Runge-Kutta step *)

Lemma upd_same (f : Vec) sp v : upd f sp v sp = v.
Proof. unfold upd. destruct (Species_eq_dec sp sp); congruence. Qed.

Lemma upd_other (f : Vec) sp sp' v : sp <> sp' -> upd f sp v sp' = f sp'.
Proof. unfold upd. destruct (Species_eq_dec sp sp'); congruence. Qed.

Lemma addEmissions_at emissions dcdt dt sp :
  addEmissions emissions dcdt dt sp
  = dcdt sp + StepSpec.emission_term emissions sp.
Proof.
  unfold addEmissions, StepSpec.emission_term.
  destruct sp;
    repeat first [rewrite upd_same | rewrite upd_other by discriminate];
    ring.
Qed.

Lemma addEmissions_none dcdt dt sp :
  addEmissions no_emissions dcdt dt sp = dcdt sp.
Proof.
  rewrite addEmissions_at. unfold StepSpec.emission_term, no_emissions.
  destruct sp; cbn [em_CH4 em_CO]; lra.
Qed.

Lemma preset_background_nonneg : nonneg preset_background.
Proof. intros sp; destruct sp; unfold preset_background; lra. Qed.

(** C2.  The step is the staged formula of the specification. *)
Theorem rk4Step_is_stepOne (c : Vec) (dt T P sza : R) (emissions : Emissions) :
  nonneg c ->
  forall sp, rk4Step c dt T P sza emissions sp
             = StepSpec.stepOne c dt T P sza emissions sp.
Proof.
  intros _ sp. unfold rk4Step, StepSpec.stepOne. cbv zeta.
  set (e := StepSpec.emission_term emissions).
  set (k1 := addEmissions emissions (calculateRates c T P sza) dt).
  set (k1' := StepSpec.vadd (calculateRates c T P sza) e).
  assert (E1 : forall s, k1 s = k1' s).
  { intros s. unfold k1, k1', StepSpec.vadd. apply addEmissions_at. }
  set (c2 := fun sp : Species => Rmax 0 (c sp + 0.5 * dt * k1 sp)).
  set (c2' := StepSpec.clamp (StepSpec.vadd c (StepSpec.vscale (dt / 2) k1'))).
  assert (C2 : forall s, c2 s = c2' s).
  { intros s. unfold c2, c2', StepSpec.clamp, StepSpec.vadd, StepSpec.vscale.
    rewrite E1. apply (f_equal (Rmax 0)). lra. }
  set (k2 := addEmissions emissions (calculateRates c2 T P sza) dt).
  set (k2' := StepSpec.vadd (calculateRates c2' T P sza) e).
  assert (E2 : forall s, k2 s = k2' s).
  { intros s. unfold k2, k2', StepSpec.vadd. rewrite addEmissions_at.
    rewrite (calculateRates_ext c2 c2') by exact C2. reflexivity. }
  set (c3 := fun sp : Species => Rmax 0 (c sp + 0.5 * dt * k2 sp)).
  set (c3' := StepSpec.clamp (StepSpec.vadd c (StepSpec.vscale (dt / 2) k2'))).
  assert (C3 : forall s, c3 s = c3' s).
  { intros s. unfold c3, c3', StepSpec.clamp, StepSpec.vadd, StepSpec.vscale.
    rewrite E2. apply (f_equal (Rmax 0)). lra. }
  set (k3 := addEmissions emissions (calculateRates c3 T P sza) dt).
  set (k3' := StepSpec.vadd (calculateRates c3' T P sza) e).
  assert (E3 : forall s, k3 s = k3' s).
  { intros s. unfold k3, k3', StepSpec.vadd. rewrite addEmissions_at.
    rewrite (calculateRates_ext c3 c3') by exact C3. reflexivity. }
  set (c4 := fun sp : Species => Rmax 0 (c sp + dt * k3 sp)).
  set (c4' := StepSpec.clamp (StepSpec.vadd c (StepSpec.vscale dt k3'))).
  assert (C4 : forall s, c4 s = c4' s).
  { intros s. unfold c4, c4', StepSpec.clamp, StepSpec.vadd, StepSpec.vscale.
    rewrite E3. reflexivity. }
  set (k4 := addEmissions emissions (calculateRates c4 T P sza) dt).
  set (k4' := StepSpec.vadd (calculateRates c4' T P sza) e).
  assert (E4 : forall s, k4 s = k4' s).
  { intros s. unfold k4, k4', StepSpec.vadd. rewrite addEmissions_at.
    rewrite (calculateRates_ext c4 c4') by exact C4. reflexivity. }
  unfold StepSpec.clamp at 1. unfold StepSpec.vadd at 1 2 3 4.
  unfold StepSpec.vscale at 1 2 3.
  rewrite E1, E2, E3, E4. reflexivity.
Qed.

(** The theorem at the background preset. *)
Lemma rk4Step_is_stepOne_witness :
  nonneg preset_background /\
  forall sp, rk4Step preset_background 60 298 1000 0 no_emissions sp
             = StepSpec.stepOne preset_background 60 298 1000 0 no_emissions sp.
Proof.
  split.
  - exact preset_background_nonneg.
  - apply (rk4Step_is_stepOne preset_background 60 298 1000 0 no_emissions).
    exact preset_background_nonneg.
Defined.

(** The step through its stages. *)
Lemma rk4Step_stages c dt T P sza emissions sp :
  rk4Step c dt T P sza emissions sp
  = Rmax 0 (c sp + dt / 6 * (slope dt T P sza emissions c sp
                             + 2 * slope dt T P sza emissions
                                     (stage2 c dt T P sza emissions) sp
                             + 2 * slope dt T P sza emissions
                                     (stage3 c dt T P sza emissions) sp
                             + slope dt T P sza emissions
                                 (stage4 c dt T P sza emissions) sp)).
Proof. reflexivity. Qed.

Lemma stage_nonneg c h d : nonneg (stage c h d).
Proof. intros sp. apply Rmax_l. Qed.

(** ** Arithmetic with NaN and the infinities *)

Lemma add_NaN_r a : Ext.add a Ext.NaN = Ext.NaN.
Proof. destruct a; reflexivity. Qed.

Lemma sub_NaN_r a : Ext.sub a Ext.NaN = Ext.NaN.
Proof. destruct a; reflexivity. Qed.

Lemma mul_NaN_r a : Ext.mul a Ext.NaN = Ext.NaN.
Proof. destruct a; reflexivity. Qed.

Lemma scale_inf_pos b x :
  0 < x -> Ext.scale_inf b x = if b then Ext.PInf else Ext.NInf.
Proof.
  intros H. unfold Ext.scale_inf. destruct (Rlt_dec 0 x); [reflexivity|contradiction].
Qed.

Lemma scale_inf_zero b : Ext.scale_inf b 0 = Ext.NaN.
Proof.
  unfold Ext.scale_inf. destruct (Rlt_dec 0 0); [lra|reflexivity].
Qed.

Lemma scale_inf_neg b x :
  x < 0 -> Ext.scale_inf b x = if b then Ext.NInf else Ext.PInf.
Proof.
  intros H. unfold Ext.scale_inf. destruct (Rlt_dec 0 x); [lra|].
  destruct (Rlt_dec x 0); [reflexivity|contradiction].
Qed.

Lemma div_by_zero x : Ext.div (Ext.Fin x) (Ext.Fin 0) = Ext.scale_inf true x.
Proof. unfold Ext.div. destruct (Req_dec_T 0 0); [reflexivity|congruence]. Qed.

Lemma div_finite x y :
  y <> 0 -> Ext.div (Ext.Fin x) (Ext.Fin y) = Ext.Fin (x / y).
Proof.
  intros H. unfold Ext.div. destruct (Req_dec_T y 0); [contradiction|reflexivity].
Qed.

Lemma js_or_finite x :
  Ext.ToNumber (Ext.js_or (Ext.VNum (Ext.Fin x)) (Ext.VNum (Ext.Fin 0)))
  = Ext.Fin x.
Proof.
  unfold Ext.js_or, Ext.truthy. destruct (Req_dec_T x 0) as [->|]; reflexivity.
Qed.

(** ** The rate constants with NaN and the infinities *)

(** [arrhenius] away from [T = 0] is the finite number of the real model. *)
Lemma arrhenius_finite A Ea T :
  T <> 0 -> Ext.arrhenius A Ea T = Ext.Fin (arrhenius A Ea T).
Proof.
  intros HT. unfold Ext.arrhenius. rewrite div_finite; [reflexivity|].
  unfold R_gas. intros H. apply HT. lra.
Qed.

(** [arrhenius] at [T = 0]: the exponent is [-Ea / 0]. *)
Lemma arrhenius_at_zero A Ea :
  0 < A ->
  (Ea < 0 -> Ext.arrhenius A Ea 0 = Ext.PInf) /\
  (0 < Ea -> Ext.arrhenius A Ea 0 = Ext.Fin (A * 0)) /\
  (Ea = 0 -> Ext.arrhenius A Ea 0 = Ext.NaN).
Proof.
  intros HA. unfold Ext.arrhenius.
  replace (R_gas * 0) with 0 by ring. rewrite div_by_zero.
  split; [|split]; intros HE.
  - rewrite scale_inf_pos by lra. cbn [Ext.Math_exp Ext.mul].
    apply scale_inf_pos. exact HA.
  - rewrite scale_inf_neg by lra. reflexivity.
  - subst Ea. replace (- 0) with 0 by ring. rewrite scale_inf_zero. reflexivity.
Qed.

Lemma Ext_rate_value T P sza name a :
  Ext.get_property (Ext.rates T P sza) name = Ext.VNum (Ext.Fin a) ->
  Ext.ToNumber (Ext.getRateConstant name T P sza) = Ext.Fin a.
Proof. intros H. unfold Ext.getRateConstant. rewrite H. apply js_or_finite. Qed.

(** The three photolysis entries are finite at every temperature. *)
Lemma Ext_J_values T P sza :
  let k := fun rxn : string => Ext.ToNumber (Ext.getRateConstant rxn T P sza) in
  k "CH2O_photolysis" = Ext.Fin (jCH2O (rate_table T P sza)) /\
  k "NO2_photolysis" = Ext.Fin (jNO2 (rate_table T P sza)) /\
  k "O3_photolysis" = Ext.Fin (jO3 (rate_table T P sza)).
Proof.
  intros k.
  destruct (rate_table_values T P sza)
    as (_ & _ & _ & E4 & _ & _ & E7 & _ & _ & E10 & _).
  cbv beta in E4, E7, E10. rewrite E4, E7, E10.
  repeat split; apply Ext_rate_value; reflexivity.
Qed.

(** Away from [T = 0] every rate constant [calculateRates] reads is the
    finite number of the real model. *)
Lemma Ext_rate_table T P sza :
  T <> 0 ->
  let k := fun rxn : string => Ext.ToNumber (Ext.getRateConstant rxn T P sza) in
  k "CH4_OH" = Ext.Fin (kCH4_OH (rate_table T P sza)) /\
  k "CH3O2_NO" = Ext.Fin (kCH3O2_NO (rate_table T P sza)) /\
  k "CH2O_OH" = Ext.Fin (kCH2O_OH (rate_table T P sza)) /\
  k "CO_OH" = Ext.Fin (kCO_OH (rate_table T P sza)) /\
  k "NO_O3" = Ext.Fin (kNO_O3 (rate_table T P sza)) /\
  k "NO2_OH" = Ext.Fin (kNO2_OH (rate_table T P sza)) /\
  k "HO2_NO" = Ext.Fin (kHO2_NO (rate_table T P sza)) /\
  k "OH_HO2" = Ext.Fin (kOH_HO2 (rate_table T P sza)) /\
  k "HO2_HO2" = Ext.Fin (kHO2_HO2 (rate_table T P sza)).
Proof.
  intros HT k.
  destruct (rate_table_values T P sza)
    as (E1 & E2 & E3 & _ & E5 & E6 & _ & E8 & E9 & _ & E11 & E12).
  rewrite E1, E2, E3, E5, E6, E8, E9, E11, E12.
  assert (A : forall name A Ea,
             Ext.get_property (Ext.rates T P sza) name
             = Ext.VNum (Ext.arrhenius A Ea T) ->
             k name = Ext.Fin (arrhenius A Ea T)).
  { intros name A Ea H. apply Ext_rate_value. rewrite H, arrhenius_finite by exact HT.
    reflexivity. }
  repeat split;
    first [ apply A; reflexivity | apply Ext_rate_value; reflexivity | idtac ].
  (* CO_OH *)
  apply Ext_rate_value.
  change (Ext.get_property (Ext.rates T P sza) "CO_OH")
    with (Ext.VNum (Ext.mul (Ext.arrhenius 1.5e-13 0 T)
                      (Ext.Fin (1 + 0.6 * P / 1013)))).
  rewrite arrhenius_finite by exact HT. reflexivity.
Qed.

(** ** The right-hand side and the step on finite vectors *)

Lemma Ext_calculateRates_ext c c' T P sza :
  (forall sp, c sp = c' sp) ->
  forall sp, Ext.calculateRates c T P sza sp = Ext.calculateRates c' T P sza sp.
Proof.
  intros H sp. unfold Ext.calculateRates. destruct sp; rewrite !H; reflexivity.
Qed.

Lemma Ext_calculateRates_finite c T P sza :
  T <> 0 ->
  forall sp, Ext.calculateRates (Ext.lift c) T P sza sp
             = Ext.Fin (calculateRates c T P sza sp).
Proof.
  intros HT sp. rewrite calculateRates_mechanism.
  destruct (Ext_rate_table T P sza HT)
    as (K1 & K2 & K3 & K5 & K6 & K8 & K9 & K11 & K12).
  destruct (Ext_J_values T P sza) as (K4 & K7 & K10).
  cbv beta in K1, K2, K3, K4, K5, K6, K7, K8, K9, K10, K11, K12.
  unfold Ext.calculateRates. cbv zeta.
  destruct sp;
    rewrite ?K1, ?K2, ?K3, ?K4, ?K5, ?K6, ?K7, ?K8, ?K9, ?K10, ?K11, ?K12;
    reflexivity.
Qed.

Lemma Ext_upd_same (f : Ext.NVec) sp v : Ext.upd f sp v sp = v.
Proof. unfold Ext.upd. destruct (Species_eq_dec sp sp); congruence. Qed.

Lemma Ext_upd_other (f : Ext.NVec) sp sp' v : sp <> sp' -> Ext.upd f sp v sp' = f sp'.
Proof. unfold Ext.upd. destruct (Species_eq_dec sp sp'); congruence. Qed.

Lemma Ext_addEmissions_at emissions (d : Ext.NVec) dt sp :
  Ext.addEmissions emissions d dt sp
  = match sp with
    | CH4 => Ext.add (d CH4) (Ext.Fin (em_CH4 emissions / 86400))
    | CO => Ext.add (d CO) (Ext.Fin (em_CO emissions / 86400))
    | _ => d sp
    end.
Proof.
  unfold Ext.addEmissions.
  destruct sp;
    repeat first [rewrite Ext_upd_same | rewrite Ext_upd_other by discriminate];
    reflexivity.
Qed.

(** The slope of a stage: the rates plus the emissions. *)
Lemma Ext_slope_finite (x : Ext.NVec) (x' : Vec) dt T P sza emissions :
  T <> 0 -> (forall sp, x sp = Ext.Fin (x' sp)) ->
  forall sp,
    Ext.addEmissions emissions (Ext.calculateRates x T P sza) dt sp
    = Ext.Fin (slope dt T P sza emissions x' sp).
Proof.
  intros HT Hx sp. unfold slope.
  rewrite Ext_addEmissions_at, addEmissions_at.
  rewrite !(Ext_calculateRates_ext x (Ext.lift x') T P sza Hx).
  rewrite !Ext_calculateRates_finite by exact HT.
  destruct sp; unfold StepSpec.emission_term; cbn [Ext.add];
    try reflexivity; f_equal; ring.
Qed.

(** Away from [T = 0] the step from a vector of finite numbers is the step
    of the real model: every stage and every slope is finite. *)
Lemma Ext_rk4Step_finite c dt T P sza emissions :
  T <> 0 ->
  forall sp, Ext.rk4Step (Ext.lift c) dt T P sza emissions sp
             = Ext.Fin (rk4Step c dt T P sza emissions sp).
Proof.
  intros HT sp. rewrite rk4Step_stages. unfold Ext.rk4Step. cbv zeta.
  pose proof (Ext_slope_finite (Ext.lift c) c dt T P sza emissions HT
                (fun _ => eq_refl)) as K1.
  set (k1 := Ext.addEmissions emissions (Ext.calculateRates (Ext.lift c) T P sza) dt) in *.
  set (c2 := fun sp0 : Species =>
               Ext.Math_max (Ext.Fin 0)
                 (Ext.add (Ext.lift c sp0) (Ext.mul (Ext.Fin (0.5 * dt)) (k1 sp0)))).
  assert (C2 : forall s, c2 s = Ext.Fin (stage2 c dt T P sza emissions s)).
  { intros s. unfold c2. rewrite K1. reflexivity. }
  pose proof (Ext_slope_finite c2 _ dt T P sza emissions HT C2) as K2.
  set (k2 := Ext.addEmissions emissions (Ext.calculateRates c2 T P sza) dt) in *.
  set (c3 := fun sp0 : Species =>
               Ext.Math_max (Ext.Fin 0)
                 (Ext.add (Ext.lift c sp0) (Ext.mul (Ext.Fin (0.5 * dt)) (k2 sp0)))).
  assert (C3 : forall s, c3 s = Ext.Fin (stage3 c dt T P sza emissions s)).
  { intros s. unfold c3. rewrite K2. reflexivity. }
  pose proof (Ext_slope_finite c3 _ dt T P sza emissions HT C3) as K3.
  set (k3 := Ext.addEmissions emissions (Ext.calculateRates c3 T P sza) dt) in *.
  set (c4 := fun sp0 : Species =>
               Ext.Math_max (Ext.Fin 0)
                 (Ext.add (Ext.lift c sp0) (Ext.mul (Ext.Fin dt) (k3 sp0)))).
  assert (C4 : forall s, c4 s = Ext.Fin (stage4 c dt T P sza emissions s)).
  { intros s. unfold c4. rewrite K3. reflexivity. }
  pose proof (Ext_slope_finite c4 _ dt T P sza emissions HT C4) as K4.
  set (k4 := Ext.addEmissions emissions (Ext.calculateRates c4 T P sza) dt) in *.
  rewrite K1, K2, K3, K4. reflexivity.
Qed.

(** ** The step at [T = 0] *)

Lemma Ext_rate_at_zero P sza :
  let k := fun rxn : string => Ext.ToNumber (Ext.getRateConstant rxn 0 P sza) in
  k "CH4_OH" = Ext.PInf /\ k "HO2_NO" = Ext.PInf.
Proof.
  intros k. unfold k, Ext.getRateConstant.
  change (Ext.get_property (Ext.rates 0 P sza) "CH4_OH")
    with (Ext.VNum (Ext.arrhenius 2.45e-12 (-1775) 0)).
  change (Ext.get_property (Ext.rates 0 P sza) "HO2_NO")
    with (Ext.VNum (Ext.arrhenius 3.5e-12 (-250) 0)).
  rewrite (proj1 (arrhenius_at_zero 2.45e-12 (-1775) ltac:(lra))) by lra.
  rewrite (proj1 (arrhenius_at_zero 3.5e-12 (-250) ltac:(lra))) by lra.
  split; reflexivity.
Qed.

(** At [T = 0] the OH derivative is [Infinity - Infinity] as soon as
    HO2, NO, CH4 and OH are present. *)
Lemma Ext_OH_slope_at_zero (c : Vec) dt P sza emissions :
  0 < c HO2 -> 0 < c NO -> 0 < c CH4 -> 0 < c OH ->
  Ext.addEmissions emissions (Ext.calculateRates (Ext.lift c) 0 P sza) dt OH
  = Ext.NaN.
Proof.
  intros H1 H2 H4 H5. rewrite Ext_addEmissions_at.
  destruct (Ext_rate_at_zero P sza) as (K1 & K9).
  destruct (Ext_J_values 0 P sza) as (_ & _ & K10).
  cbv beta in K1, K9, K10.
  unfold Ext.calculateRates. cbv zeta. rewrite K1, K9, K10.
  unfold Ext.lift.
  cbn [Ext.mul]. rewrite !scale_inf_pos by assumption.
  cbn [Ext.mul]. rewrite !scale_inf_pos by assumption.
  reflexivity.
Qed.

(** The derivatives that have a term with the factor OH are NaN once the
    OH entry is: all but those of NO and O3. *)
Lemma Ext_calculateRates_NaN (x : Ext.NVec) T P sza sp :
  x OH = Ext.NaN -> sp <> NO -> sp <> O3 ->
  Ext.calculateRates x T P sza sp = Ext.NaN.
Proof.
  intros H HNO HO3. unfold Ext.calculateRates. cbv zeta.
  destruct sp; try congruence; rewrite H;
    repeat first [ rewrite mul_NaN_r | rewrite sub_NaN_r | rewrite add_NaN_r
                 | reflexivity ].
Qed.

(** A NaN in the first OH slope reaches the second stage and, through it,
    the result: [Math.max(0, NaN)] is [NaN]. *)
Lemma Ext_rk4Step_NaN (c : Ext.NVec) dt T P sza emissions sp :
  Ext.addEmissions emissions (Ext.calculateRates c T P sza) dt OH = Ext.NaN ->
  sp <> NO -> sp <> O3 ->
  Ext.rk4Step c dt T P sza emissions sp = Ext.NaN.
Proof.
  intros H HNO HO3. unfold Ext.rk4Step. cbv zeta.
  set (k1 := Ext.addEmissions emissions (Ext.calculateRates c T P sza) dt) in *.
  set (c2 := fun sp0 : Species =>
               Ext.Math_max (Ext.Fin 0)
                 (Ext.add (c sp0) (Ext.mul (Ext.Fin (0.5 * dt)) (k1 sp0)))).
  assert (C2 : c2 OH = Ext.NaN).
  { unfold c2. rewrite H, mul_NaN_r, add_NaN_r. reflexivity. }
  assert (K2 : Ext.addEmissions emissions (Ext.calculateRates c2 T P sza) dt sp
               = Ext.NaN).
  { rewrite Ext_addEmissions_at.
    destruct sp; try congruence;
      rewrite (Ext_calculateRates_NaN c2 T P sza _ C2) by discriminate;
      reflexivity. }
  rewrite K2. rewrite mul_NaN_r, add_NaN_r. cbn [Ext.add].
  rewrite mul_NaN_r, add_NaN_r. reflexivity.
Qed.

Lemma preset_background_present :
  0 < preset_background HO2 /\ 0 < preset_background NO /\
  0 < preset_background CH4 /\ 0 < preset_background OH.
Proof. unfold preset_background. repeat split; lra. Qed.




(** ** The carbon balance of the right-hand side *)

Lemma Ext_CH3O2_NO_rate T P sza :
  Ext.ToNumber (Ext.getRateConstant "CH3O2_NO" T P sza) = Ext.Fin 2.8e-12.
Proof. apply Ext_rate_value. reflexivity. Qed.




(** ** Photolysis rates *)

Lemma Math_pow_pos x y : 0 < x -> Math_pow x y = Rpower x y /\ 0 < Math_pow x y.
Proof.
  intros Hx. unfold Math_pow. destruct (Req_dec_T x 0) as [E|_]; [lra|].
  split; [reflexivity|]. unfold Rpower. apply exp_pos.
Qed.

Lemma Math_pow_zero y : 0 < y -> Math_pow 0 y = 0.
Proof.
  intros Hy. unfold Math_pow. destruct (Req_dec_T 0 0) as [_|E]; [|congruence].
  destruct (Req_dec_T y 0); [lra|reflexivity].
Qed.

Lemma Math_pow_one y : Math_pow 1 y = 1.
Proof.
  destruct (Math_pow_pos 1 y) as [E _]; [lra|]. rewrite E.
  unfold Rpower. rewrite ln_1, Rmult_0_r. apply exp_0.
Qed.

Lemma Math_pow_unit x y : 0 <= x <= 1 -> 0 < y -> 0 <= Math_pow x y <= 1.
Proof.
  intros [H0 H1] Hy. destruct H0 as [Hpos | <-].
  - destruct (Math_pow_pos x y Hpos) as [E Hp]. split; [lra|].
    rewrite E. unfold Rpower. rewrite <- exp_0.
    destruct H1 as [Hlt | ->].
    + left. apply exp_increasing.
      assert (ln x < 0) by (rewrite <- ln_1; apply ln_increasing; lra).
      nra.
    + rewrite ln_1, Rmult_0_r. lra.
  - rewrite Math_pow_zero by assumption. lra.
Qed.

Lemma radians_day sza : 0 <= sza < 90 -> 0 <= sza * PI / 180 < PI / 2.
Proof. intros H. pose proof PI_RGT_0. split; nra. Qed.

Lemma radians_night sza :
  90 <= sza <= 270 -> PI / 2 <= sza * PI / 180 <= 3 * (PI / 2).
Proof. intros H. pose proof PI_RGT_0. split; nra. Qed.

Lemma cosSza_day sza :
  0 <= sza < 90 ->
  Rmax 0 (cos (sza * PI / 180)) = cos (sza * PI / 180)
  /\ 0 < cos (sza * PI / 180).
Proof.
  intros H. destruct (radians_day sza H) as [Hlo Hhi].
  assert (Hc : 0 < cos (sza * PI / 180)).
  { apply cos_gt_0; [|assumption]. pose proof PI_RGT_0. lra. }
  split; [|assumption]. apply Rmax_right. lra.
Qed.

Lemma cosSza_night sza :
  90 <= sza <= 270 -> Rmax 0 (cos (sza * PI / 180)) = 0.
Proof.
  intros H. destruct (radians_night sza H) as [Hlo Hhi].
  apply Rmax_left. apply cos_le_0; assumption.
Qed.

Lemma cosSza_unit sza : 0 <= Rmax 0 (cos (sza * PI / 180)) <= 1.
Proof.
  split; [apply Rmax_l|]. apply Rmax_lub; [lra|].
  apply (COS_bound (sza * PI / 180)).
Qed.

Lemma cosSza_360 : Rmax 0 (cos (360 * PI / 180)) = 1.
Proof.
  replace (360 * PI / 180) with (2 * PI) by lra.
  rewrite cos_2PI. apply Rmax_right. lra.
Qed.

Lemma calculateJValue_at_360 :
  calculateJValue "NO2_photolysis" 360 = JSNumber (8e-3 * 1).
Proof.
  rewrite (calculateJValue_own _ _ {| j0 := 8e-3; n := 1.0 |}) by reflexivity.
  cbn [j0 n]. rewrite cosSza_360, Math_pow_one. reflexivity.
Qed.

(** C3 (counterexample).  At [sza = 360], which is at least 90, the
    J-value of NO2 photolysis is 0.008 and not 0. *)
Lemma photolysis_not_zero_beyond_270 :
  ~ (forall r sza,
        In r ["NO2_photolysis"; "O3_to_O1D"; "CH2O_photolysis"] ->
        90 <= sza -> calculateJValue r sza = JSNumber 0).
Proof.
  intros H. specialize (H "NO2_photolysis" 360 (or_introl eq_refl)).
  rewrite calculateJValue_at_360 in H.
  assert (E : JSNumber (8e-3 * 1) = JSNumber 0) by (apply H; lra).
  injection E. lra.
Qed.

(** C3 (amended).  For each of the three photolysis reactions the J-value is
    exactly 0 for [90 < sza <= 270] and strictly positive for
    [0 <= sza < 90]; on [0, 90] it does not increase with [sza], and it
    strictly decreases between two angles that are at least 0.01 degrees
    apart. *)
Theorem photolysis_day_and_night (r : string) :
  In r ["NO2_photolysis"; "O3_to_O1D"; "CH2O_photolysis"] ->
  (forall sza, 90 < sza <= 270 -> calculateJValue r sza = JSNumber 0) /\
  (forall sza, 0 <= sza < 90 ->
     exists j, calculateJValue r sza = JSNumber j /\ 0 < j) /\
  (forall s1 s2, 0 <= s1 -> s1 <= s2 -> s2 <= 90 ->
     exists j1 j2, calculateJValue r s1 = JSNumber j1 /\
                   calculateJValue r s2 = JSNumber j2 /\
                   j2 <= j1 /\ (s1 + 0.01 <= s2 -> j2 < j1)).
Proof.
  intros Hr.
  destruct (calculateJValue_number r 0 Hr) as (p & Hown & Hj0 & Hn & _).
  assert (Night : forall sza, 90 <= sza <= 270 ->
                    j0 p * Math_pow (Rmax 0 (cos (sza * PI / 180))) (n p) = 0).
  { intros sza H. rewrite cosSza_night by assumption.
    rewrite Math_pow_zero by assumption. ring. }
  assert (Day : forall sza, 0 <= sza < 90 ->
                  0 < j0 p * Math_pow (Rmax 0 (cos (sza * PI / 180))) (n p)).
  { intros sza H. destruct (cosSza_day sza H) as [E Hc]. rewrite E.
    apply Rmult_lt_0_compat; [assumption|]. apply Math_pow_pos; assumption. }
  assert (Strict : forall s1 s2, 0 <= s1 -> s1 < s2 -> s2 <= 90 ->
            j0 p * Math_pow (Rmax 0 (cos (s2 * PI / 180))) (n p)
            < j0 p * Math_pow (Rmax 0 (cos (s1 * PI / 180))) (n p)).
  { intros s1 s2 H0 H12 H90. destruct H90 as [Hlt | ->].
    - destruct (cosSza_day s1 ltac:(lra)) as [E1 Hc1].
      destruct (cosSza_day s2 ltac:(lra)) as [E2 Hc2].
      rewrite E1, E2.
      destruct (Math_pow_pos _ (n p) Hc1) as [P1 _].
      destruct (Math_pow_pos _ (n p) Hc2) as [P2 _].
      rewrite P1, P2. apply Rmult_lt_compat_l; [assumption|].
      apply Rlt_Rpower_l; [assumption|]. split; [assumption|].
      destruct (radians_day s1 ltac:(lra)) as [A1 B1].
      destruct (radians_day s2 ltac:(lra)) as [A2 B2].
      pose proof PI_RGT_0.
      apply cos_decreasing_1; try lra. nra.
    - rewrite (Night 90) by lra. apply Day. lra. }
  split; [|split].
  - intros sza H. rewrite (calculateJValue_own r sza p Hown).
    rewrite Night by lra. reflexivity.
  - intros sza H. eexists. split; [apply (calculateJValue_own r sza p Hown)|].
    apply Day; assumption.
  - intros s1 s2 H0 H12 H90.
    do 2 eexists.
    split; [apply (calculateJValue_own r s1 p Hown)|].
    split; [apply (calculateJValue_own r s2 p Hown)|].
    split.
    + destruct H12 as [Hlt | ->]; [|lra].
      left. apply Strict; assumption.
    + intros Hsep. apply Strict; lra.
Qed.

(** The theorem at the reaction O3_to_O1D and [sza = 180]. *)
Lemma photolysis_day_and_night_witness :
  In "O3_to_O1D" ["NO2_photolysis"; "O3_to_O1D"; "CH2O_photolysis"] /\
  calculateJValue "O3_to_O1D" 180 = JSNumber 0.
Proof.
  assert (H : In "O3_to_O1D" ["NO2_photolysis"; "O3_to_O1D"; "CH2O_photolysis"])
    by (simpl; tauto).
  split; [exact H|].
  apply (proj1 (photolysis_day_and_night "O3_to_O1D" H)). lra.
Defined.

(** ** Bounds on the rate constants *)

Lemma exp_le_compat x y : x <= y -> exp x <= exp y.
Proof. intros [H | ->]; [left; apply exp_increasing; assumption | lra]. Qed.

Lemma exp_unit_interval x : 0 <= x <= 1 -> 1 <= exp x <= 3.
Proof.
  intros [H0 H1]. split.
  - rewrite <- exp_0. apply exp_le_compat; assumption.
  - apply Rle_trans with (exp 1); [apply exp_le_compat; assumption|apply exp_le_3].
Qed.

Lemma exp_nonpos x : x <= 0 -> 0 < exp x <= 1.
Proof.
  intros H. split; [apply exp_pos|]. rewrite <- exp_0.
  apply exp_le_compat; assumption.
Qed.

Lemma arrhenius_pos A Ea T : 0 < A -> 0 < arrhenius A Ea T.
Proof. intros H. unfold arrhenius. apply Rmult_lt_0_compat; [assumption|apply exp_pos]. Qed.

Lemma arrhenius_zero_Ea A T : arrhenius A 0 T = A.
Proof.
  unfold arrhenius. replace (- 0 / (R_gas * T)) with 0.
  - rewrite exp_0. ring.
  - unfold Rdiv. ring.
Qed.

Lemma J_unit sza j n :
  0 <= j -> 0 < n ->
  0 <= j * Math_pow (Rmax 0 (cos (sza * PI / 180))) n <= j.
Proof.
  intros Hj Hn.
  pose proof (Math_pow_unit _ n (cosSza_unit sza) Hn). nra.
Qed.

Lemma fraction_unit a d : 0 <= a -> a <= d -> 0 < d -> 0 <= a / d <= 1.
Proof.
  intros Ha Had Hd.
  assert (Hi : 0 < / d) by (apply Rinv_0_lt_compat; exact Hd).
  split; [unfold Rdiv; apply Rmult_le_pos; lra|].
  apply (Rmult_le_reg_r d); [exact Hd|].
  replace (a / d * d) with a by (field; lra). lra.
Qed.

(** The exponents of the three temperature-dependent rate constants from
    214 K on. *)
Lemma arrhenius_exponents T :
  214 <= T ->
  0 <= - -1775 / (R_gas * T) <= 1 /\
  0 <= - -250 / (R_gas * T) <= 1 /\
  - (1500) / (R_gas * T) <= 0.
Proof.
  intros HT. unfold R_gas.
  assert (Hd : 0 < 8.314 * T) by lra.
  assert (Hi : 0 < / (8.314 * T)) by (apply Rinv_0_lt_compat; exact Hd).
  replace (- -1775 / (8.314 * T)) with (1775 / (8.314 * T))
    by (unfold Rdiv; lra).
  replace (- -250 / (8.314 * T)) with (250 / (8.314 * T))
    by (unfold Rdiv; lra).
  split; [apply fraction_unit; lra|].
  split; [apply fraction_unit; lra|].
  unfold Rdiv. nra.
Qed.

(** The rate constants from 214 K on and between 0 and 100000 hPa, which
    covers the ranges of the specification (250 to 320 K, 500 to 1013 hPa),
    whatever the solar zenith angle. *)
Lemma rates_bounded_valid T P sza :
  214 <= T -> 0 <= P <= 100000 -> rates_bounded (rate_table T P sza).
Proof.
  intros HT HP.
  destruct (rate_table_values T P sza)
    as (E1 & E2 & E3 & E4 & E5 & E6 & E7 & E8 & E9 & E10 & E11 & E12).
  cbv beta in E4, E7, E10. unfold rates_bounded.
  rewrite E1, E2, E3, E4, E5, E6, E7, E8, E9, E10, E11, E12.
  rewrite !arrhenius_zero_Ea. unfold arrhenius.
  destruct (arrhenius_exponents T HT) as (X1 & X2 & X3).
  pose proof (exp_unit_interval _ X1).
  pose proof (exp_unit_interval _ X2).
  pose proof (exp_nonpos _ X3).
  pose proof (J_unit sza 5e-5 1.2 ltac:(lra) ltac:(lra)).
  pose proof (J_unit sza 8e-3 1.0 ltac:(lra) ltac:(lra)).
  pose proof (J_unit sza 3e-5 1.5 ltac:(lra) ltac:(lra)).
  repeat split; lra.
Qed.

Lemma jCH2O_night T P sza :
  90 <= sza <= 270 -> jCH2O (rate_table T P sza) = 0.
Proof.
  intros H.
  destruct (rate_table_values T P sza) as (_ & _ & _ & E & _). rewrite E.
  cbv beta.
  rewrite cosSza_night by exact H. rewrite Math_pow_zero by lra. ring.
Qed.

(** Halving an angle at most halves its sine. *)
Lemma sin_half x : 0 <= x <= PI / 2 -> sin (2 * x) <= 2 * sin x.
Proof.
  intros [H0 H1]. rewrite sin_2a.
  pose proof (COS_bound x) as [_ Hc].
  assert (Hs : 0 <= sin x).
  { apply sin_ge_0; [exact H0|]. pose proof PI_RGT_0. lra. }
  nra.
Qed.

Lemma sin_PI_192 : 1 / 64 <= sin (PI / 192).
Proof.
  pose proof PI_RGT_0 as Hpi.
  pose proof sin_PI6 as S6.
  pose proof (sin_half (PI / 12) ltac:(lra)) as S12.
  replace (2 * (PI / 12)) with (PI / 6) in S12 by lra.
  pose proof (sin_half (PI / 24) ltac:(lra)) as S24.
  replace (2 * (PI / 24)) with (PI / 12) in S24 by lra.
  pose proof (sin_half (PI / 48) ltac:(lra)) as S48.
  replace (2 * (PI / 48)) with (PI / 24) in S48 by lra.
  pose proof (sin_half (PI / 96) ltac:(lra)) as S96.
  replace (2 * (PI / 96)) with (PI / 48) in S96 by lra.
  pose proof (sin_half (PI / 192) ltac:(lra)) as S192.
  replace (2 * (PI / 192)) with (PI / 96) in S192 by lra.
  lra.
Qed.

(** Up to 89 degrees the cosine of the zenith angle is at least 1/64. *)
Lemma cosSza_89 sza :
  0 <= sza <= 89 -> 1 / 64 <= cos (sza * PI / 180) <= 1.
Proof.
  intros H. pose proof PI_RGT_0 as Hpi.
  split; [|apply COS_bound].
  apply Rle_trans with (1 := sin_PI_192).
  apply Rle_trans with (sin (PI / 180)).
  - apply sin_incr_1; lra.
  - rewrite <- cos_shift.
    apply cos_decr_1; nra.
Qed.

(** For a base in (0, 1], the power 1.2 is at least the square. *)
Lemma Rpower_above_square x : 0 < x <= 1 -> x * x <= Rpower x 1.2.
Proof.
  intros [H0 H1]. unfold Rpower.
  assert (L : ln x <= 0) by (rewrite <- ln_1; destruct H1 as [H1 | ->];
                              [left; apply ln_increasing; lra|lra]).
  replace (x * x) with (exp (ln x + ln x))
    by (rewrite exp_plus, exp_ln by exact H0; reflexivity).
  apply exp_le_compat. lra.
Qed.

(** Up to 89 degrees formaldehyde photolysis is at least 1.2e-8 per second. *)
Lemma jCH2O_day T P sza :
  0 <= sza <= 89 -> 1.2e-8 <= jCH2O (rate_table T P sza).
Proof.
  intros H.
  destruct (rate_table_values T P sza) as (_ & _ & _ & E & _). rewrite E.
  cbv beta.
  destruct (cosSza_89 sza H) as [C1 C2].
  rewrite Rmax_right by lra.
  destruct (Math_pow_pos (cos (sza * PI / 180)) 1.2 ltac:(lra)) as [-> _].
  pose proof (Rpower_above_square (cos (sza * PI / 180)) ltac:(lra)).
  nra.
Qed.

(** ** The stages of a step from the background preset *)

Lemma mul2_bounds a b al au bl bu :
  0 <= al <= a -> a <= au -> 0 <= bl <= b -> b <= bu ->
  al * bl <= a * b <= au * bu.
Proof. intros. split; apply Rmult_le_compat; lra. Qed.

Lemma mul3_bounds a b c al au bl bu cl cu :
  0 <= al <= a -> a <= au -> 0 <= bl <= b -> b <= bu ->
  0 <= cl <= c -> c <= cu ->
  al * bl * cl <= a * b * c <= au * bu * cu.
Proof.
  intros. destruct (mul2_bounds a b al au bl bu) as [? ?]; try assumption.
  assert (0 <= al * bl) by (apply Rmult_le_pos; lra).
  split; apply Rmult_le_compat; lra.
Qed.

Ltac box_terms k c :=
  pose proof (mul3_bounds (kCH4_OH k) (c CH4) (c OH) 2.45e-12 7.35e-12 1799 1801 0.09 0.5);
  pose proof (mul3_bounds (kCH3O2_NO k) (c CH3O2) (c NO) 2.8e-12 2.8e-12 0 0.02 0.4 4);
  pose proof (mul3_bounds (kCH2O_OH k) (c CH2O) (c OH) 5.5e-12 5.5e-12 0.9 1.1 0.09 0.5);
  pose proof (mul2_bounds (jCH2O k) (c CH2O) 0 5e-5 0.9 1.1);
  pose proof (mul3_bounds (kCO_OH k) (c CO) (c OH) 0 1e-11 99 101 0.09 0.5);
  pose proof (mul2_bounds (jO3 k) (c O3) 0 3e-5 38 44);
  pose proof (mul3_bounds (kHO2_NO k) (c HO2) (c NO) 0 1.05e-11 9 11 0.4 4);
  pose proof (mul3_bounds (kNO2_OH k) (c NO2) (c OH) 1.2e-11 1.2e-11 0 0.6 0.09 0.5);
  pose proof (mul3_bounds (kOH_HO2 k) (c OH) (c HO2) 4.8e-11 4.8e-11 0.09 0.5 9 11);
  pose proof (mul3_bounds (kHO2_HO2 k) (c HO2) (c HO2) 2.3e-13 2.3e-13 9 11 9 11);
  pose proof (mul2_bounds (jNO2 k) (c NO2) 0 8e-3 0 0.6);
  pose proof (mul3_bounds (kNO_O3 k) (c NO) (c O3) 0 3e-12 0.4 4 38 44);
  repeat match goal with H : _ -> _ |- _ => specialize (H ltac:(lra)) end.

Lemma mechanism_slopes k c :
  rates_bounded k -> inbox c -> slopes_bounded (mechanism k c).
Proof.
  intros (K1 & K2 & K3 & K4 & K5 & K6 & K7 & K8 & K9 & K10 & K11 & K12)
         (B1 & B2 & B3 & B4 & B5 & B6 & B7 & B8 & B9 & B10).
  box_terms k c. unfold slopes_bounded, mechanism. repeat split; lra.
Qed.

(** Without formaldehyde photolysis the proxy CH4 + CO + CO2 has a negative
    slope on the box: methane is oxidised into CH3O2, which the proxy does
    not count. *)
Lemma mechanism_proxy_night k c :
  rates_bounded k -> jCH2O k = 0 -> inbox c ->
  mechanism k c CH4 + mechanism k c CO + mechanism k c CO2 <= -3e-10.
Proof.
  intros (K1 & K2 & K3 & K4 & K5 & K6 & K7 & K8 & K9 & K10 & K11 & K12) J
         (B1 & B2 & B3 & B4 & B5 & B6 & B7 & B8 & B9 & B10).
  box_terms k c. unfold mechanism. rewrite J. lra.
Qed.

(** With formaldehyde photolysis of at least 1.2e-8 per second the proxy has
    a positive slope on the box: photolysis feeds CO faster than methane is
    consumed. *)
Lemma mechanism_proxy_day k c :
  rates_bounded k -> 1.2e-8 <= jCH2O k -> inbox c ->
  4e-9 <= mechanism k c CH4 + mechanism k c CO + mechanism k c CO2.
Proof.
  intros (K1 & K2 & K3 & K4 & K5 & K6 & K7 & K8 & K9 & K10 & K11 & K12) J
         (B1 & B2 & B3 & B4 & B5 & B6 & B7 & B8 & B9 & B10).
  box_terms k c.
  pose proof (mul2_bounds (jCH2O k) (c CH2O) 1.2e-8 5e-5 0.9 1.1
                ltac:(lra) ltac:(lra) ltac:(lra) ltac:(lra)).
  unfold mechanism. lra.
Qed.

Lemma preset_background_inbox : inbox preset_background.
Proof. unfold inbox, preset_background. repeat split; lra. Qed.

Lemma scaled_slope h d lo hi :
  0 <= h <= 600 -> lo <= d <= hi -> lo <= 0 -> 0 <= hi ->
  600 * lo <= h * d <= 600 * hi.
Proof. intros. split; nra. Qed.

Lemma stage_inbox (d : Vec) h :
  slopes_bounded d -> 0 <= h <= 600 ->
  inbox (fun sp => Rmax 0 (preset_background sp + h * d sp)).
Proof.
  intros (D1 & D2 & D3 & D4 & D5 & D6 & D7 & D8 & D9 & D10) Hh.
  pose proof (scaled_slope h (d CH4) (-1e-8) 0 Hh ltac:(lra) ltac:(lra) ltac:(lra)).
  pose proof (scaled_slope h (d CO) _ _ Hh D2 ltac:(lra) ltac:(lra)).
  pose proof (scaled_slope h (d CO2) _ _ Hh D3 ltac:(lra) ltac:(lra)).
  pose proof (scaled_slope h (d OH) _ _ Hh D4 ltac:(lra) ltac:(lra)).
  pose proof (scaled_slope h (d HO2) _ _ Hh D5 ltac:(lra) ltac:(lra)).
  pose proof (scaled_slope h (d O3) _ _ Hh D6 ltac:(lra) ltac:(lra)).
  pose proof (scaled_slope h (d NO) _ _ Hh D7 ltac:(lra) ltac:(lra)).
  pose proof (scaled_slope h (d NO2) _ _ Hh D8 ltac:(lra) ltac:(lra)).
  pose proof (scaled_slope h (d CH3O2) 0 1e-8 Hh ltac:(lra) ltac:(lra) ltac:(lra)).
  pose proof (scaled_slope h (d CH2O) _ _ Hh D10 ltac:(lra) ltac:(lra)).
  unfold inbox, preset_background.
  repeat split;
    match goal with
    | |- 0 <= Rmax 0 _ => apply Rmax_l
    | |- _ <= Rmax 0 ?x => apply Rle_trans with x; [lra|apply Rmax_r]
    | |- Rmax 0 ?x <= _ => apply Rmax_lub; lra
    end.
Qed.

(** ** The step through its stages *)

Lemma slope_no_emissions dt T P sza x sp :
  slope dt T P sza no_emissions x sp = mechanism (rate_table T P sza) x sp.
Proof. unfold slope. rewrite addEmissions_none. reflexivity. Qed.

Lemma slopes_after_addEmissions d dt :
  slopes_bounded d -> slopes_bounded (addEmissions no_emissions d dt).
Proof. unfold slopes_bounded. rewrite !addEmissions_none. tauto. Qed.

(** A step of at most 600 s from the background preset without emissions,
    from 214 K on and between 0 and 100000 hPa, stays in the box. *)
Lemma background_stages_inbox dt T P sza :
  0 <= dt <= 600 -> 214 <= T -> 0 <= P <= 100000 ->
  inbox (stage2 preset_background dt T P sza no_emissions) /\
  inbox (stage3 preset_background dt T P sza no_emissions) /\
  inbox (stage4 preset_background dt T P sza no_emissions).
Proof.
  intros Hdt HT HP.
  pose proof (rates_bounded_valid T P sza HT HP) as Hk.
  assert (Hf : forall x, inbox x ->
                 slopes_bounded (slope dt T P sza no_emissions x)).
  { intros x Hx. apply slopes_after_addEmissions.
    rewrite calculateRates_mechanism. apply mechanism_slopes; assumption. }
  pose proof preset_background_inbox as I1.
  assert (I2 : inbox (stage2 preset_background dt T P sza no_emissions))
    by (apply stage_inbox; [apply Hf; assumption|lra]).
  assert (I3 : inbox (stage3 preset_background dt T P sza no_emissions))
    by (apply stage_inbox; [apply Hf; assumption|lra]).
  assert (I4 : inbox (stage4 preset_background dt T P sza no_emissions))
    by (apply stage_inbox; [apply Hf; assumption|lra]).
  tauto.
Qed.

(** C6.  From the background preset at T = 298 K, P = 1000 hPa, sza = 0,
    without emissions and with dt = 60 s, one step strictly decreases CH4
    and strictly increases CH3O2. *)
Theorem background_step_CH4_CH3O2 :
  rk4Step preset_background 60 298 1000 0 no_emissions CH4 < 1800 /\
  0.01 < rk4Step preset_background 60 298 1000 0 no_emissions CH3O2.
Proof.
  destruct (background_stages_inbox 60 298 1000 0
              ltac:(lra) ltac:(lra) ltac:(lra)) as (I2 & I3 & I4).
  pose proof preset_background_inbox as I1.
  pose proof (rates_bounded_valid 298 1000 0 ltac:(lra) ltac:(lra)) as Hk.
  destruct (mechanism_slopes _ _ Hk I1) as (A1 & _ & _ & _ & _ & _ & _ & _ & B1 & _).
  destruct (mechanism_slopes _ _ Hk I2) as (A2 & _ & _ & _ & _ & _ & _ & _ & B2 & _).
  destruct (mechanism_slopes _ _ Hk I3) as (A3 & _ & _ & _ & _ & _ & _ & _ & B3 & _).
  destruct (mechanism_slopes _ _ Hk I4) as (A4 & _ & _ & _ & _ & _ & _ & _ & B4 & _).
  rewrite !rk4Step_stages, !slope_no_emissions.
  change (preset_background CH4) with 1800.
  change (preset_background CH3O2) with 0.01. split.
  - apply Rmax_lub_lt; lra.
  - apply Rlt_le_trans with (2 := Rmax_r _ _). lra.
Qed.

(** ** The carbon proxy over one step *)

(** The weighted mean of four slopes, times the step. *)
Lemma weighted_slopes dt a1 a2 a3 a4 lo hi :
  0 <= dt -> lo <= a1 <= hi -> lo <= a2 <= hi -> lo <= a3 <= hi ->
  lo <= a4 <= hi ->
  dt * lo <= dt / 6 * (a1 + 2 * a2 + 2 * a3 + a4) <= dt * hi.
Proof.
  intros Hdt H1 H2 H3 H4.
  replace (dt / 6 * (a1 + 2 * a2 + 2 * a3 + a4))
    with (dt * ((a1 + 2 * a2 + 2 * a3 + a4) / 6)) by (unfold Rdiv; ring).
  split; apply Rmult_le_compat_l; lra.
Qed.

(** The proxy after a step, from the slopes of the proxy at the four
    stages. *)
Lemma carbon_proxy_step dt T P sza lo hi :
  0 <= dt <= 600 -> 214 <= T -> 0 <= P <= 100000 ->
  (forall x, inbox x ->
     lo <= mechanism (rate_table T P sza) x CH4
           + mechanism (rate_table T P sza) x CO
           + mechanism (rate_table T P sza) x CO2 <= hi) ->
  carbon_proxy preset_background + dt * lo
  <= carbon_proxy (rk4Step preset_background dt T P sza no_emissions)
  <= carbon_proxy preset_background + dt * hi.
Proof.
  intros Hdt HT HP Hp.
  destruct (background_stages_inbox dt T P sza Hdt HT HP) as (I2 & I3 & I4).
  pose proof preset_background_inbox as I1.
  pose proof (rates_bounded_valid T P sza HT HP) as Hk.
  pose proof (Hp _ I1) as P1. pose proof (Hp _ I2) as P2.
  pose proof (Hp _ I3) as P3. pose proof (Hp _ I4) as P4.
  destruct (mechanism_slopes _ _ Hk I1) as (A1 & B1 & C1 & _).
  destruct (mechanism_slopes _ _ Hk I2) as (A2 & B2 & C2 & _).
  destruct (mechanism_slopes _ _ Hk I3) as (A3 & B3 & C3 & _).
  destruct (mechanism_slopes _ _ Hk I4) as (A4 & B4 & C4 & _).
  unfold carbon_proxy. rewrite !rk4Step_stages, !slope_no_emissions.
  change (preset_background CH4) with 1800.
  change (preset_background CO) with 100.
  change (preset_background CO2) with 400000.
  set (k := rate_table T P sza) in *.
  set (m1 := mechanism k preset_background) in *.
  set (m2 := mechanism k (stage2 preset_background dt T P sza no_emissions)) in *.
  set (m3 := mechanism k (stage3 preset_background dt T P sza no_emissions)) in *.
  set (m4 := mechanism k (stage4 preset_background dt T P sza no_emissions)) in *.
  destruct Hdt as [Hdt0 Hdt1].
  pose proof (weighted_slopes dt (m1 CH4) (m2 CH4) (m3 CH4) (m4 CH4) _ _
                Hdt0 A1 A2 A3 A4) as S4.
  pose proof (weighted_slopes dt (m1 CO) (m2 CO) (m3 CO) (m4 CO) _ _
                Hdt0 B1 B2 B3 B4) as SO.
  pose proof (weighted_slopes dt (m1 CO2) (m2 CO2) (m3 CO2) (m4 CO2) _ _
                Hdt0 C1 C2 C3 C4) as S2.
  pose proof (weighted_slopes dt (m1 CH4 + m1 CO + m1 CO2)
                (m2 CH4 + m2 CO + m2 CO2) (m3 CH4 + m3 CO + m3 CO2)
                (m4 CH4 + m4 CO + m4 CO2) lo hi Hdt0 P1 P2 P3 P4) as S.
  replace (dt / 6 * (m1 CH4 + m1 CO + m1 CO2 + 2 * (m2 CH4 + m2 CO + m2 CO2)
                     + 2 * (m3 CH4 + m3 CO + m3 CO2)
                     + (m4 CH4 + m4 CO + m4 CO2)))
    with (dt / 6 * (m1 CH4 + 2 * m2 CH4 + 2 * m3 CH4 + m4 CH4)
          + dt / 6 * (m1 CO + 2 * m2 CO + 2 * m3 CO + m4 CO)
          + dt / 6 * (m1 CO2 + 2 * m2 CO2 + 2 * m3 CO2 + m4 CO2)) in S
    by (unfold Rdiv; ring).
  rewrite !Rmax_right by lra.
  lra.
Qed.

(** C4 (counterexample).  At night (sza = 180), from the background preset
    without emissions, at 298 K and 1000 hPa, a 60 s step lowers
    CH4 + CO + CO2 by at least 1.8e-8 ppb: methane is oxidised into CH3O2,
    which the proxy does not count. *)
Lemma carbon_proxy_decreases_at_night :
  carbon_proxy (rk4Step preset_background 60 298 1000 180 no_emissions)
  <= carbon_proxy preset_background - 1.8e-8
  /\ carbon_proxy (rk4Step preset_background 60 298 1000 180 no_emissions)
     < carbon_proxy preset_background.
Proof.
  assert (H : carbon_proxy (rk4Step preset_background 60 298 1000 180 no_emissions)
              <= carbon_proxy preset_background - 1.8e-8).
  { pose proof (rates_bounded_valid 298 1000 180 ltac:(lra) ltac:(lra)) as Hk.
    pose proof (jCH2O_night 298 1000 180 ltac:(lra)) as J.
    destruct (carbon_proxy_step 60 298 1000 180 (-1) (-3e-10)
                ltac:(lra) ltac:(lra) ltac:(lra)) as [_ U].
    - intros x Hx. pose proof (mechanism_proxy_night _ _ Hk J Hx).
      pose proof (mechanism_slopes _ _ Hk Hx) as (A1 & B1 & C1 & _). lra.
    - lra. }
  split; [exact H|lra].
Qed.

(** C4 (amended).  From the background preset without emissions, for a step
    of at most 600 s, a temperature of at least 214 K, a pressure between 0
    and 100000 hPa and a solar zenith angle between 0 and 89 degrees, one
    step does not lower the proxy CH4 + CO + CO2.  The ranges of the
    specification (10 to 600 s, 250 to 320 K, 500 to 1013 hPa) lie inside
    these. *)
Theorem background_step_carbon_proxy (dt T P sza : R) :
  0 <= dt <= 600 -> 214 <= T -> 0 <= P <= 100000 -> 0 <= sza <= 89 ->
  carbon_proxy preset_background
  <= carbon_proxy (rk4Step preset_background dt T P sza no_emissions).
Proof.
  intros Hdt HT HP Hs.
  pose proof (rates_bounded_valid T P sza HT HP) as Hk.
  pose proof (jCH2O_day T P sza Hs) as J.
  destruct (carbon_proxy_step dt T P sza 4e-9 1 Hdt HT HP) as [L _].
  - intros x Hx. pose proof (mechanism_proxy_day _ _ Hk J Hx).
    pose proof (mechanism_slopes _ _ Hk Hx) as (A1 & B1 & C1 & _). lra.
  - nra.
Qed.

(** The theorem at noon, 298 K, 1000 hPa and a step of 60 s. *)
Lemma background_step_carbon_proxy_witness :
  0 <= 60 <= 600 /\ 214 <= 298 /\ 0 <= 1000 <= 100000 /\ 0 <= 0 <= 89 /\
  carbon_proxy preset_background
  <= carbon_proxy (rk4Step preset_background 60 298 1000 0 no_emissions).
Proof.
  split; [lra|]. split; [lra|]. split; [lra|]. split; [lra|].
  apply (background_step_carbon_proxy 60 298 1000 0); lra.
Defined.

(** ** CO2 over one step *)

(** The CO2 slope is the rate of CO + OH. *)
Lemma CO2_slope emissions (x : Vec) dt T P sza :
  slope dt T P sza emissions x CO2
  = 1.5e-13 * (1 + 0.6 * P / 1013) * (x CO * x OH).
Proof.
  unfold slope. rewrite addEmissions_at, calculateRates_mechanism.
  destruct (rate_table_values T P sza) as (_ & _ & _ & _ & E & _).
  unfold mechanism, StepSpec.emission_term. rewrite E, arrhenius_zero_Ea. ring.
Qed.

Lemma CO_OH_product (x : Vec) : nonneg x -> 0 <= x CO * x OH.
Proof. intros H. apply Rmult_le_pos; apply H. Qed.

(** With the (negative) pressure P = -100000 the factor [1 + 0.6 P / 1013]
    of the CO + OH rate constant is negative and a step from the background
    preset lowers CO2. *)
Lemma CO2_at_negative_pressure :
  rk4Step preset_background 60 298 (-100000) 0 no_emissions CO2
  < preset_background CO2.
Proof.
  rewrite rk4Step_stages, !CO2_slope.
  pose proof (CO_OH_product _ (stage_nonneg preset_background (0.5 * 60)
     (slope 60 298 (-100000) 0 no_emissions preset_background))) as N2.
  pose proof (CO_OH_product _ (stage_nonneg preset_background (0.5 * 60)
     (slope 60 298 (-100000) 0 no_emissions
        (stage2 preset_background 60 298 (-100000) 0 no_emissions)))) as N3.
  pose proof (CO_OH_product _ (stage_nonneg preset_background 60
     (slope 60 298 (-100000) 0 no_emissions
        (stage3 preset_background 60 298 (-100000) 0 no_emissions)))) as N4.
  fold (stage2 preset_background 60 298 (-100000) 0 no_emissions) in N2.
  fold (stage3 preset_background 60 298 (-100000) 0 no_emissions) in N3.
  fold (stage4 preset_background 60 298 (-100000) 0 no_emissions) in N4.
  change (preset_background CO2) with 400000.
  change (preset_background CO) with 100.
  change (preset_background OH) with 0.1.
  apply Rmax_lub_lt; lra.
Qed.

(** In finite arithmetic, with a factor [1 + 0.6 P / 1013 >= 0], every
    slope of CO2 is a product of non-negative numbers. *)
Lemma CO2_finite_step (c : Vec) (dt T P sza : R) (emissions : Emissions) :
  nonneg c -> 0 <= dt -> 0 <= 1 + 0.6 * P / 1013 ->
  c CO2 <= rk4Step c dt T P sza emissions CO2.
Proof.
  intros Hc Hdt HP.
  rewrite rk4Step_stages, !CO2_slope.
  apply Rle_trans with (2 := Rmax_r _ _).
  pose proof (CO_OH_product c Hc) as N1.
  pose proof (CO_OH_product _ (stage_nonneg c (0.5 * dt)
     (slope dt T P sza emissions c))) as N2.
  pose proof (CO_OH_product _ (stage_nonneg c (0.5 * dt)
     (slope dt T P sza emissions (stage2 c dt T P sza emissions)))) as N3.
  pose proof (CO_OH_product _ (stage_nonneg c dt
     (slope dt T P sza emissions (stage3 c dt T P sza emissions)))) as N4.
  fold (stage2 c dt T P sza emissions) in N2.
  fold (stage3 c dt T P sza emissions) in N3.
  fold (stage4 c dt T P sza emissions) in N4.
  set (q := 1.5e-13 * (1 + 0.6 * P / 1013)).
  assert (Hq : 0 <= q) by (unfold q; apply Rmult_le_pos; lra).
  assert (0 <= dt / 6 * (q * (c CO * c OH)
                         + 2 * (q * (stage2 c dt T P sza emissions CO
                                     * stage2 c dt T P sza emissions OH))
                         + 2 * (q * (stage3 c dt T P sza emissions CO
                                     * stage3 c dt T P sza emissions OH))
                         + q * (stage4 c dt T P sza emissions CO
                                * stage4 c dt T P sza emissions OH))).
  { apply Rmult_le_pos; [lra|].
    repeat apply Rplus_le_le_0_compat;
      repeat (apply Rmult_le_pos; try assumption; try lra). }
  lra.
Qed.




(** ** Simulation control *)

(** The [forEach] loops over the species keys. *)

Lemma SPECIES_keys_complete sp : In sp SPECIES_keys.
Proof. destruct sp; unfold SPECIES_keys; cbn [In]; tauto. Qed.

Lemma SPECIES_keys_NoDup : NoDup SPECIES_keys.
Proof.
  unfold SPECIES_keys.
  repeat (constructor; [cbn [In]; intros H;
                        repeat (destruct H as [H|H]; [discriminate H|]);
                        exact H|]).
  constructor.
Qed.

Lemma assign_loop_fields (v : Vec) l w :
  let w' :=
    fold_left
      (fun w sp =>
         set_state w (set_concentrations (state w)
                        (upd (concentrations (state w)) sp (v sp))))
      l w in
  timeSeriesData w' = timeSeriesData w /\
  animationFrameId w' = animationFrameId w /\
  lastUpdateTime w' = lastUpdateTime w /\
  simSpeedFactor w' = simSpeedFactor w /\
  timeStepSize w' = timeStepSize w /\
  time (state w') = time (state w) /\
  solarZenithAngle (state w') = solarZenithAngle (state w) /\
  isRunning (state w') = isRunning (state w).
Proof.
  revert w. induction l as [|a l IH]; intros w; cbn [fold_left].
  - repeat split.
  - cbv zeta in IH.
    destruct (IH (set_state w (set_concentrations (state w)
                (upd (concentrations (state w)) a (v a)))))
      as (E1 & E2 & E3 & E4 & E5 & E6 & E7 & E8).
    rewrite E1, E2, E3, E4, E5, E6, E7, E8. repeat split.
Qed.

Lemma assign_loop_values (v : Vec) l w sp :
  let w' :=
    fold_left
      (fun w sp =>
         set_state w (set_concentrations (state w)
                        (upd (concentrations (state w)) sp (v sp))))
      l w in
  (In sp l -> concentrations (state w') sp = v sp) /\
  (~ In sp l -> concentrations (state w') sp = concentrations (state w) sp).
Proof.
  revert w. induction l as [|a l IH]; intros w; cbn [fold_left].
  - split; [intros []|reflexivity].
  - cbv zeta in IH.
    destruct (IH (set_state w (set_concentrations (state w)
                (upd (concentrations (state w)) a (v a))))) as [Hin Hout].
    cbn [state set_state concentrations set_concentrations] in Hout.
    destruct (in_dec Species_eq_dec sp l) as [Hl|Hl].
    + split; [intros _; apply Hin; assumption|].
      intros Hn. exfalso. apply Hn. right. assumption.
    + split.
      * intros [->|H]; [|contradiction].
        rewrite (Hout Hl). apply upd_same.
      * intros Hn. rewrite (Hout Hl). apply upd_other.
        intros ->. apply Hn. left. reflexivity.
Qed.

Lemma initializeConcentrations_fields preset w :
  let w' := initializeConcentrations preset w in
  timeSeriesData w' = timeSeriesData w /\
  animationFrameId w' = animationFrameId w /\
  lastUpdateTime w' = lastUpdateTime w /\
  simSpeedFactor w' = simSpeedFactor w /\
  timeStepSize w' = timeStepSize w /\
  time (state w') = time (state w) /\
  solarZenithAngle (state w') = solarZenithAngle (state w) /\
  isRunning (state w') = isRunning (state w).
Proof. unfold initializeConcentrations. apply assign_loop_fields. Qed.

Lemma initializeConcentrations_values preset w v :
  own_property presets preset = Some v ->
  forall sp, concentrations (state (initializeConcentrations preset w)) sp = v sp.
Proof.
  intros H sp. unfold initializeConcentrations. rewrite H.
  apply assign_loop_values. apply SPECIES_keys_complete.
Qed.

Lemma clear_loop l w sp :
  let w' :=
    fold_left
      (fun w sp =>
         set_timeSeriesData w
           (mkSeries (ts_time (timeSeriesData w))
              (fun sp' => if Species_eq_dec sp sp' then []
                          else ts_concentrations (timeSeriesData w) sp')))
      l w in
  state w' = state w /\
  ts_time (timeSeriesData w') = ts_time (timeSeriesData w) /\
  (In sp l -> ts_concentrations (timeSeriesData w') sp = []) /\
  (~ In sp l -> ts_concentrations (timeSeriesData w') sp
                = ts_concentrations (timeSeriesData w) sp).
Proof.
  revert w. induction l as [|a l IH]; intros w; cbn [fold_left].
  - repeat split. intros [].
  - cbv zeta in IH.
    match goal with
    | |- context [fold_left _ l ?w1] =>
        destruct (IH w1) as (E1 & E2 & Hin & Hout)
    end.
    cbn [state set_timeSeriesData timeSeriesData ts_time ts_concentrations]
      in E1, E2, Hout.
    rewrite E1, E2. split; [reflexivity|]. split; [reflexivity|].
    destruct (in_dec Species_eq_dec sp l) as [Hl|Hl].
    + split; [intros _; apply Hin; assumption|].
      intros Hn. exfalso. apply Hn. right. assumption.
    + split.
      * intros [->|H]; [|contradiction].
        rewrite (Hout Hl). destruct (Species_eq_dec sp sp); congruence.
      * intros Hn. rewrite (Hout Hl).
        destruct (Species_eq_dec a sp) as [->|]; [|reflexivity].
        exfalso. apply Hn. left. reflexivity.
Qed.

Lemma clear_loop_timeStepSize l w :
  timeStepSize
    (fold_left
       (fun w sp =>
          set_timeSeriesData w
            (mkSeries (ts_time (timeSeriesData w))
               (fun sp' => if Species_eq_dec sp sp' then []
                           else ts_concentrations (timeSeriesData w) sp')))
       l w)
  = timeStepSize w.
Proof.
  revert w. induction l as [|a l IH]; intros w; cbn [fold_left].
  - reflexivity.
  - rewrite IH. reflexivity.
Qed.

Lemma pauseSimulation_fields w :
  let w' := pauseSimulation w in
  isRunning (state w') = false /\
  timeSeriesData w' = timeSeriesData w /\
  timeStepSize w' = timeStepSize w.
Proof.
  unfold pauseSimulation. cbn [animationFrameId set_state].
  destruct (animationFrameId w); repeat split.
Qed.

Lemma resetSimulation_effect (w : World) :
  let w' := resetSimulation w in
  timeStepSize w' = timeStepSize w /\
  isRunning (state w') = false /\
  time (state w') = 0 /\
  solarZenithAngle (state w') = 0 /\
  ts_time (timeSeriesData w') = [] /\
  (forall sp, ts_concentrations (timeSeriesData w') sp = []) /\
  (forall sp, concentrations (state w') sp = preset_background sp).
Proof.
  intros w'. unfold w', resetSimulation. cbv zeta. clear w'.
  match goal with
  | |- context [initializeConcentrations "background" ?x] => set (w1 := x)
  end.
  assert (V : forall sp,
             concentrations (state (initializeConcentrations "background" w1)) sp
             = preset_background sp)
    by (apply initializeConcentrations_values; reflexivity).
  destruct (initializeConcentrations_fields "background" w1)
    as (E1 & _ & _ & _ & E5 & E2 & E3 & E4).
  rewrite E1, E2, E3, E4, E5. clear E1 E2 E3 E4 E5.
  assert (C : forall sp,
             state w1 = set_solarZenithAngle
                          (set_time (state (pauseSimulation w)) 0) 0 /\
             ts_time (timeSeriesData w1) = [] /\
             ts_concentrations (timeSeriesData w1) sp = []).
  { intros sp. unfold w1.
    match goal with
    | |- context [fold_left _ SPECIES_keys ?x] =>
        destruct (clear_loop SPECIES_keys x sp) as (C1 & C2 & C3 & _)
    end.
    split; [exact C1|]. split; [exact C2|].
    apply C3. apply SPECIES_keys_complete. }
  assert (S : timeStepSize w1 = timeStepSize w).
  { unfold w1.
    match goal with
    | |- context [fold_left _ SPECIES_keys ?x] =>
        transitivity (timeStepSize x);
        [apply (clear_loop_timeStepSize SPECIES_keys x)|]
    end.
    cbn [timeStepSize set_timeSeriesData set_state].
    apply pauseSimulation_fields. }
  destruct (C CH4) as (C1 & C2 & _). rewrite C1, C2.
  destruct (pauseSimulation_fields w) as (P1 & _).
  cbn [isRunning time solarZenithAngle set_time set_solarZenithAngle].
  rewrite P1.
  repeat split; try reflexivity; try assumption.
  intros sp. apply (C sp).
Qed.

(** C9.  After [resetSimulation] the simulation is stopped, the simulated
    time and the solar zenith angle are 0, the time-series buffer is empty
    and every concentration is its background value. *)
Theorem resetSimulation_restores_background (w : World) :
  let w' := resetSimulation w in
  isRunning (state w') = false /\
  time (state w') = 0 /\
  solarZenithAngle (state w') = 0 /\
  ts_time (timeSeriesData w') = [] /\
  List.length (ts_time (timeSeriesData w')) = 0%nat /\
  (forall sp, ts_concentrations (timeSeriesData w') sp = []) /\
  concentrations (state w') CH4 = 1800 /\
  concentrations (state w') CO = 100 /\
  concentrations (state w') CO2 = 400000 /\
  concentrations (state w') OH = 0.1 /\
  concentrations (state w') HO2 = 10 /\
  concentrations (state w') O3 = 40 /\
  concentrations (state w') NO = 0.5 /\
  concentrations (state w') NO2 = 0.5 /\
  concentrations (state w') CH3O2 = 0.01 /\
  concentrations (state w') CH2O = 1.
Proof.
  intros w'.
  destruct (resetSimulation_effect w) as (_ & E1 & E2 & E3 & E4 & E5 & V).
  fold w' in E1, E2, E3, E4, E5, V.
  rewrite E1, E2, E3, E4, !V.
  repeat split; try reflexivity. exact E5.
Qed.

Lemma handle_buffer ev w : timeSeriesData (handle ev w) = timeSeriesData w.
Proof.
  destruct ev; cbn [handle];
    try (apply (initializeConcentrations_fields (preset_key name) w));
    try destruct (negb (diurnalCycle (state w)));
    reflexivity.
Qed.

(** *** The sampling policy of [stepSimulation] *)

Lemma nth_length_pred (l : list R) d :
  nth (List.length l - 1) l d = last l d.
Proof.
  induction l as [|a l IH]; [reflexivity|].
  destruct l as [|b l]; [reflexivity|].
  cbn [List.length last] in *. rewrite <- IH.
  replace (S (S (List.length l)) - 1)%nat with (S (List.length l - 0)) by lia.
  cbn [nth]. replace (List.length l - 0)%nat with (S (List.length l) - 1)%nat by lia.
  reflexivity.
Qed.

Lemma Rgeb_true x y : Rgeb x y = true <-> x >= y.
Proof. unfold Rgeb. destruct (Rge_dec x y); split; congruence || tauto. Qed.

(** The test of [stepSimulation], as a proposition. *)
Lemma sample_due_iff (buffer : list R) (now dt : R) :
  (Nat.eqb (List.length buffer) 0
   || Rgeb (now - nth (List.length buffer - 1) buffer 0) (dt * 10))%bool = true
  <-> (buffer = [] \/ now - last buffer 0 >= 10 * dt).
Proof.
  rewrite orb_true_iff, Nat.eqb_eq, Rgeb_true, nth_length_pred.
  replace (dt * 10) with (10 * dt) by ring.
  split; (intros [H|H]; [left|right; exact H]).
  - destruct buffer; [reflexivity|discriminate H].
  - rewrite H. reflexivity.
Qed.

Lemma push_loop (v : Vec) l (acc : Species -> list R) sp :
  NoDup l ->
  let acc' :=
    fold_left
      (fun (acc : Species -> list R) sp =>
         fun sp' => if Species_eq_dec sp sp' then push (acc sp) (v sp)
                    else acc sp')
      l acc in
  (In sp l -> acc' sp = (acc sp ++ [v sp])%list) /\ (~ In sp l -> acc' sp = acc sp).
Proof.
  intros Hl. revert acc.
  induction Hl as [|a l Ha Hl IH]; intros acc; cbn [fold_left].
  - split; [intros []|reflexivity].
  - cbv zeta in IH.
    match goal with
    | |- context [fold_left _ l ?acc1] => destruct (IH acc1) as [Hin Hout]
    end.
    split.
    + intros [->|H].
      * rewrite (Hout Ha). destruct (Species_eq_dec sp sp); [reflexivity|congruence].
      * rewrite (Hin H). destruct (Species_eq_dec a sp) as [->|]; [contradiction|].
        reflexivity.
    + intros Hn. rewrite Hout by (intros H; apply Hn; right; exact H).
      destruct (Species_eq_dec a sp) as [->|]; [|reflexivity].
      exfalso. apply Hn. left. reflexivity.
Qed.

Lemma updateDiurnalCycle_fields s :
  time (updateDiurnalCycle s) = time s /\
  concentrations (updateDiurnalCycle s) = concentrations s.
Proof.
  unfold updateDiurnalCycle. destruct (negb (diurnalCycle s)); split; reflexivity.
Qed.

(** What one call of [stepSimulation] does to the clock and to the buffer. *)
Lemma stepSimulation_effect dt w :
  let w' := stepSimulation dt w in
  let now := time (state w) + dt in
  let buffer := ts_time (timeSeriesData w) in
  time (state w') = now /\
  timeStepSize w' = timeStepSize w /\
  ((buffer = [] \/ now - last buffer 0 >= 10 * dt) ->
     ts_time (timeSeriesData w') = (buffer ++ [now])%list /\
     forall sp, ts_concentrations (timeSeriesData w') sp
                = (ts_concentrations (timeSeriesData w) sp
                     ++ [concentrations (state w') sp])%list) /\
  (~ (buffer = [] \/ now - last buffer 0 >= 10 * dt) ->
     timeSeriesData w' = timeSeriesData w).
Proof.
  unfold stepSimulation. cbv zeta.
  set (s1 := set_time _ _).
  pose proof (updateDiurnalCycle_fields s1) as [Et Ec].
  set (s' := updateDiurnalCycle s1) in *.
  cbn [timeSeriesData set_state].
  assert (Enow : time s' = time (state w) + dt) by (rewrite Et; reflexivity).
  pose proof (sample_due_iff (ts_time (timeSeriesData w)) (time s') dt) as Hdue.
  rewrite Enow in Hdue at 2.
  destruct (Nat.eqb _ _ || Rgeb _ _)%bool.
  - cbn [state set_state set_timeSeriesData timeSeriesData ts_time
           ts_concentrations timeStepSize].
    split; [exact Enow|]. split; [reflexivity|]. split.
    + intros _. split; [unfold push; rewrite Enow; reflexivity|].
      intros sp.
      apply (push_loop (concentrations s') SPECIES_keys _ sp SPECIES_keys_NoDup).
      apply SPECIES_keys_complete.
    + intros Hn. exfalso. apply Hn. apply Hdue. reflexivity.
  - cbn [state set_state timeSeriesData timeStepSize].
    split; [exact Enow|]. split; [reflexivity|]. split.
    + intros H. apply Hdue in H. discriminate H.
    + intros _. reflexivity.
Qed.

Lemma spaced_push gap (buffer : list R) now :
  spaced gap buffer ->
  buffer = [] \/ now - last buffer 0 >= gap ->
  spaced gap (buffer ++ [now])%list.
Proof.
  induction buffer as [|a l IH]; intros Hs Hd.
  - cbn. tauto.
  - destruct l as [|b l].
    + cbn. destruct Hd as [Hd|Hd]; [discriminate Hd|]. cbn in Hd. tauto.
    + destruct Hs as [Hab Hs]. split; [exact Hab|].
      apply IH; [exact Hs|]. right.
      destruct Hd as [Hd|Hd]; [discriminate Hd|exact Hd].
Qed.

Lemma stepSimulation_spaced dmin dt w :
  dmin <= dt ->
  spaced (10 * dmin) (ts_time (timeSeriesData w)) ->
  spaced (10 * dmin) (ts_time (timeSeriesData (stepSimulation dt w))).
Proof.
  intros Hd Hs. destruct (stepSimulation_effect dt w) as (_ & _ & Hdue & Hnot).
  set (due := ts_time (timeSeriesData w) = []
              \/ time (state w) + dt - last (ts_time (timeSeriesData w)) 0
                 >= 10 * dt) in *.
  assert (D : due \/ ~ due).
  { unfold due. destruct (ts_time (timeSeriesData w)) as [|a l]; [tauto|].
    destruct (Rge_dec (time (state w) + dt - last (a :: l) 0) (10 * dt)); [tauto|].
    right. intros [H|H]; [discriminate H|contradiction]. }
  destruct D as [D|D].
  - destruct (Hdue D) as [E _]. rewrite E. apply spaced_push; [exact Hs|].
    destruct D as [D|D]; [left; exact D|right; lra].
  - rewrite (Hnot D). exact Hs.
Qed.

Lemma steps_spaced numSteps dmin dt w :
  dmin <= dt ->
  spaced (10 * dmin) (ts_time (timeSeriesData w)) ->
  spaced (10 * dmin) (ts_time (timeSeriesData (steps numSteps dt w))).
Proof.
  intros Hd. revert w. induction numSteps as [|i IH]; intros w H; cbn [steps].
  - exact H.
  - apply IH. apply stepSimulation_spaced; assumption.
Qed.

Lemma runSimulation_spaced dmin currentTime frame w :
  dmin <= timeStepSize w ->
  spaced (10 * dmin) (ts_time (timeSeriesData w)) ->
  spaced (10 * dmin)
    (ts_time (timeSeriesData (runSimulation currentTime frame w))).
Proof.
  intros Hd S. unfold runSimulation.
  destruct (negb (isRunning (state w))); [exact S|].
  cbv zeta. cbn [timeSeriesData set_animationFrameId].
  apply steps_spaced; assumption.
Qed.

Lemma initial_world_buffer : ts_time (timeSeriesData initial_world) = [].
Proof.
  unfold initial_world.
  match goal with
  | |- context [initializeConcentrations "background" ?x] =>
      destruct (initializeConcentrations_fields "background" x) as (E & _)
  end.
  rewrite E. reflexivity.
Qed.

(** What every reachable world keeps true: the recorded times are spaced. *)
Lemma reachable_spaced dmin w :
  reachable dmin w -> spaced (10 * dmin) (ts_time (timeSeriesData w)).
Proof.
  induction 1 as [|now currentTime frame w _ IH Hd|currentTime frame w _ IH Hd
                  |w _ IH Hd|w _ IH|w _ IH|ev w _ IH].
  - rewrite initial_world_buffer. exact I.
  - unfold startSimulation. destruct (isRunning (state w)); [exact IH|].
    cbv zeta. apply runSimulation_spaced; assumption.
  - apply runSimulation_spaced; assumption.
  - apply stepSimulation_spaced; assumption.
  - destruct (pauseSimulation_fields w) as (_ & E1 & _). rewrite E1. exact IH.
  - destruct (resetSimulation_effect w) as (_ & _ & _ & _ & E2 & _).
    rewrite E2. exact I.
  - rewrite handle_buffer. exact IH.
Qed.

Lemma steps_succ numSteps dt w :
  steps (S numSteps) dt w = stepSimulation dt (steps numSteps dt w).
Proof.
  revert w. induction numSteps as [|i IH]; intros w; [reflexivity|].
  cbn [steps] in *. rewrite <- IH. reflexivity.
Qed.

Lemma steps_reachable dmin (numSteps : nat) w :
  reachable dmin w -> dmin <= timeStepSize w ->
  reachable dmin (steps numSteps (timeStepSize w) w).
Proof.
  revert w. induction numSteps as [|i IH]; intros w H Hd; cbn [steps].
  - exact H.
  - assert (E : timeStepSize (stepSimulation (timeStepSize w) w) = timeStepSize w)
      by apply (stepSimulation_effect (timeStepSize w) w).
    rewrite <- E at 1. apply IH.
    + apply reach_step; assumption.
    + rewrite E. exact Hd.
Qed.

Lemma initial_world_clock :
  time (state initial_world) = 0 /\ timeStepSize initial_world = 60.
Proof.
  unfold initial_world.
  match goal with
  | |- context [initializeConcentrations "background" ?x] =>
      destruct (initializeConcentrations_fields "background" x)
        as (_ & _ & _ & _ & E1 & E2 & _)
  end.
  rewrite E1, E2. split; reflexivity.
Qed.

(** The first ten steps of 60 s after the script has loaded: the first step
    records the time 60 s, and none of the next nine is ten steps after
    it. *)
Lemma first_steps_trace (i : nat) :
  (i < 10)%nat ->
  time (state (steps (S i) 60 initial_world)) = 60 * INR (S i) /\
  ts_time (timeSeriesData (steps (S i) 60 initial_world)) = [60].
Proof.
  induction i as [|i IH]; intros Hi.
  - cbn [steps].
    destruct (stepSimulation_effect 60 initial_world) as (Et & _ & Hdue & _).
    destruct initial_world_clock as (T0 & _).
    destruct Hdue as [Eb _]; [left; apply initial_world_buffer|].
    rewrite Et, Eb, initial_world_buffer, T0. cbn [INR app].
    replace (0 + 60) with 60 by lra. split; [lra|reflexivity].
  - destruct (IH ltac:(lia)) as [Et Eb]. rewrite steps_succ.
    destruct (stepSimulation_effect 60 (steps (S i) 60 initial_world))
      as (Et' & _ & _ & Hnot).
    rewrite Et', Hnot, Et, Eb.
    + split; [|reflexivity]. rewrite (S_INR (S i)). lra.
    + rewrite Et, Eb. cbn [last].
      assert (INR (S i) <= 9).
      { replace 9 with (INR 9) by (rewrite INR_IZR_INZ; reflexivity).
        apply le_INR. lia. }
      intros [D|D]; [discriminate D|lra].
Qed.

Lemma ten_steps_trace :
  time (state (steps 10 60 initial_world)) = 600 /\
  ts_time (timeSeriesData (steps 10 60 initial_world)) = [60].
Proof.
  destruct (first_steps_trace 9 ltac:(lia)) as [Et Eb].
  split; [|exact Eb]. rewrite Et.
  replace (INR 10) with 10 by (rewrite INR_IZR_INZ; reflexivity). lra.
Qed.

Lemma ten_steps_reachable : reachable 60 (steps 10 60 initial_world).
Proof.
  destruct initial_world_clock as (_ & E).
  rewrite <- E at 2. apply steps_reachable; [apply reach_init|]. rewrite E. lra.
Qed.

(** C8.  In every state reached by a run whose steps are never shorter than
    [dmin] (for a run with one step size [dt], [dmin = dt]), a call of
    [stepSimulation] with a step [dt >= dmin] advances the clock by [dt] and
    appends a sample (the new time and the new concentration of every
    species) exactly when the buffer is empty or the new time is at least
    [10 dt] after the last recorded time; two consecutive recorded times
    are never closer than [10 dmin], before and after the step, however
    many steps the animation ticks have performed. *)
Theorem sampling_policy (dmin dt : R) (w : World) :
  reachable dmin w -> dmin <= dt ->
  let w' := stepSimulation dt w in
  let now := time (state w) + dt in
  let buffer := ts_time (timeSeriesData w) in
  time (state w') = now /\
  ((buffer = [] \/ now - last buffer 0 >= 10 * dt) ->
     ts_time (timeSeriesData w') = (buffer ++ [now])%list /\
     forall sp, ts_concentrations (timeSeriesData w') sp
                = (ts_concentrations (timeSeriesData w) sp
                     ++ [concentrations (state w') sp])%list) /\
  (~ (buffer = [] \/ now - last buffer 0 >= 10 * dt) ->
     timeSeriesData w' = timeSeriesData w) /\
  spaced (10 * dmin) buffer /\
  spaced (10 * dmin) (ts_time (timeSeriesData w')).
Proof.
  intros Hw Hd w' now buffer.
  pose proof (reachable_spaced dmin w Hw) as S.
  destruct (stepSimulation_effect dt w) as (E1 & _ & E2 & E3).
  split; [exact E1|]. split; [exact E2|]. split; [exact E3|].
  split; [exact S|]. apply stepSimulation_spaced; assumption.
Qed.

(** The theorem at the eleventh step of 60 s after the script has loaded:
    the buffer holds the time 60 s of the first step, the clock shows
    600 s, and the step to 660 s is the first that is ten steps after the
    recorded one, so it appends the second sample. *)
Lemma sampling_policy_witness :
  reachable 60 (steps 10 60 initial_world) /\ 60 <= 60 /\
  ts_time (timeSeriesData (steps 10 60 initial_world)) = [60] /\
  ts_time (timeSeriesData (stepSimulation 60 (steps 10 60 initial_world)))
  = [60; 660] /\
  spaced (10 * 60)
    (ts_time (timeSeriesData (stepSimulation 60 (steps 10 60 initial_world)))).
Proof.
  pose proof ten_steps_reachable as Hw.
  destruct ten_steps_trace as [Et Eb].
  destruct (sampling_policy 60 60 (steps 10 60 initial_world) Hw ltac:(lra))
    as (_ & Hdue & _ & _ & Hs).
  split; [exact Hw|]. split; [lra|]. split; [exact Eb|]. split; [|exact Hs].
  destruct Hdue as [E _].
  - right. rewrite Et, Eb. cbn [last]. lra.
  - rewrite E, Eb, Et. cbn [app]. replace (600 + 60) with 660 by lra.
    reflexivity.
Defined.

(** * Further properties of the code *)

(** ** Rate constants *)

Lemma arrhenius_exponent_order Ea T1 T2 :
  0 < T1 -> T1 < T2 ->
  (0 < Ea -> - Ea / (R_gas * T1) < - Ea / (R_gas * T2)) /\
  (Ea < 0 -> - Ea / (R_gas * T2) < - Ea / (R_gas * T1)).
Proof.
  intros H1 H12. unfold R_gas.
  assert (I1 : 0 < / (8.314 * T1)) by (apply Rinv_0_lt_compat; lra).
  assert (I2 : 0 < / (8.314 * T2)) by (apply Rinv_0_lt_compat; lra).
  assert (I : / (8.314 * T2) < / (8.314 * T1))
    by (apply Rinv_lt_contravar; nra).
  unfold Rdiv. split; intros HE; nra.
Qed.

(** X1.  [arrhenius]: for a positive pre-factor and positive temperatures,
    the rate constant grows with temperature when [Ea > 0], falls when
    [Ea < 0] and does not depend on temperature when [Ea = 0]. *)
Theorem arrhenius_temperature (A Ea T1 T2 : R) :
  0 < A -> 0 < T1 -> T1 < T2 ->
  (0 < Ea -> arrhenius A Ea T1 < arrhenius A Ea T2) /\
  (Ea < 0 -> arrhenius A Ea T2 < arrhenius A Ea T1) /\
  (Ea = 0 -> arrhenius A Ea T1 = arrhenius A Ea T2).
Proof.
  intros HA H1 H12.
  destruct (arrhenius_exponent_order Ea T1 T2 H1 H12) as [Hpos Hneg].
  unfold arrhenius. split; [|split].
  - intros HE. apply Rmult_lt_compat_l; [exact HA|].
    apply exp_increasing. apply Hpos. exact HE.
  - intros HE. apply Rmult_lt_compat_l; [exact HA|].
    apply exp_increasing. apply Hneg. exact HE.
  - intros ->. fold (arrhenius A 0 T1). fold (arrhenius A 0 T2).
    rewrite !arrhenius_zero_Ea. reflexivity.
Qed.

(** The theorem for NO + O3 (Ea = 1500) between 250 K and 320 K. *)
Lemma arrhenius_temperature_witness :
  0 < 3.0e-12 /\ 0 < 250 /\ 250 < 320 /\
  arrhenius 3.0e-12 1500 250 < arrhenius 3.0e-12 1500 320.
Proof.
  split; [lra|]. split; [lra|]. split; [lra|].
  apply (proj1 (arrhenius_temperature 3.0e-12 1500 250 320
                  ltac:(lra) ltac:(lra) ltac:(lra))).
  lra.
Defined.

Lemma get_property_rates_number T P sza name v :
  get_property (rates T P sza) name = JSNumber v ->
  getRateConstant name T P sza = JSNumber v.
Proof. intros H. unfold getRateConstant. rewrite H. apply js_or_number. Qed.

Lemma J_value_own sza name p :
  own_property jValues name = Some p -> 0 <= j0 p -> 0 < n p ->
  exists j, calculateJValue name sza = JSNumber j /\ 0 <= j <= j0 p.
Proof.
  intros Hown Hj Hn. eexists. split; [apply (calculateJValue_own _ _ _ Hown)|].
  apply J_unit; assumption.
Qed.

Lemma Rpower_positive x y : 0 < Rpower x y.
Proof. unfold Rpower. apply exp_pos. Qed.

(** X2.  [getRateConstant]: for a positive temperature and a non-negative
    pressure, each of the fifteen reactions has a rate constant that is a
    number and is not negative, whatever the solar zenith angle. *)
Theorem rate_constants_nonneg (name : string) (T P sza : R) :
  0 < T -> 0 <= P -> In name reaction_names ->
  exists k, getRateConstant name T P sza = JSNumber k /\ 0 <= k.
Proof.
  intros HT HP Hin.
  assert (Arr : forall A Ea, 0 < A -> 0 <= arrhenius A Ea T)
    by (intros A Ea HA; left; apply arrhenius_pos; exact HA).
  assert (Jv : forall key p,
             own_property jValues key = Some p -> 0 <= j0 p -> 0 < n p ->
             forall nm, get_property (rates T P sza) nm = calculateJValue key sza ->
             exists k, getRateConstant nm T P sza = JSNumber k /\ 0 <= k).
  { intros key p Hown Hj Hn nm Hget.
    destruct (J_value_own sza key p Hown Hj Hn) as (j & Ej & Hj0).
    exists j. split; [|lra]. apply get_property_rates_number.
    rewrite Hget. exact Ej. }
  unfold reaction_names in Hin. cbn [In] in Hin.
  repeat (destruct Hin as [<-|Hin];
          [first
             [ eexists; split;
               [apply get_property_rates_number; reflexivity|];
               first [apply Arr; lra | lra | fail]
             | idtac ]|]);
    try contradiction.
  - (* CH2O_photolysis *)
    apply (Jv "CH2O_photolysis" {| j0 := 5e-5; n := 1.2 |});
      try reflexivity; cbn [j0 n]; lra.
  - (* CO_OH *)
    eexists. split; [apply get_property_rates_number; reflexivity|].
    apply Rmult_le_pos; [apply Arr; lra|].
    assert (0 <= 0.6 * P / 1013) by (unfold Rdiv; nra). lra.
  - (* NO2_photolysis *)
    apply (Jv "NO2_photolysis" {| j0 := 8e-3; n := 1.0 |});
      try reflexivity; cbn [j0 n]; lra.
  - (* O_O2_M *)
    eexists. split; [apply get_property_rates_number; reflexivity|].
    assert (H300 : 0 < T / 300) by (unfold Rdiv; nra).
    destruct (Math_pow_pos (T / 300) (-2.4) H300) as [_ Hp].
    assert (HM : 0 <= P * 100 / (1.381e-23 * T) * 1e-6).
    { apply Rmult_le_pos; [|lra]. unfold Rdiv. apply Rmult_le_pos; [lra|].
      left. apply Rinv_0_lt_compat. nra. }
    apply Rmult_le_pos; [|exact HM]. apply Rmult_le_pos; [lra|lra].
  - (* O3_photolysis *)
    apply (Jv "O3_to_O1D" {| j0 := 3e-5; n := 1.5 |});
      try reflexivity; cbn [j0 n]; lra.
Qed.

(** The theorem for CO + OH at the default temperature and pressure. *)
Lemma rate_constants_nonneg_witness :
  0 < 298 /\ 0 <= 1000 /\ In "CO_OH" reaction_names /\
  exists k, getRateConstant "CO_OH" 298 1000 0 = JSNumber k /\ 0 <= k.
Proof.
  assert (H : In "CO_OH" reaction_names)
    by (unfold reaction_names; cbn [In]; tauto).
  split; [lra|]. split; [lra|]. split; [exact H|].
  apply (rate_constants_nonneg "CO_OH" 298 1000 0); [lra|lra|exact H].
Defined.

(** ** Photolysis rates *)

Lemma cosSza_even sza :
  Rmax 0 (cos (- sza * PI / 180)) = Rmax 0 (cos (sza * PI / 180)).
Proof.
  replace (- sza * PI / 180) with (- (sza * PI / 180)) by lra.
  rewrite cos_neg. reflexivity.
Qed.

Lemma cosSza_0 : Rmax 0 (cos (0 * PI / 180)) = 1.
Proof.
  replace (0 * PI / 180) with 0 by lra. rewrite cos_0. apply Rmax_right. lra.
Qed.

(** X3.  [calculateJValue]: for each of the three photolysis reactions and
    every solar zenith angle, the J-value is a number between 0 and the
    J-value at overhead sun ([sza = 0]), which is [j0]: 0.008, 0.00003 and
    0.00005. *)
Theorem J_value_bounds (r : string) (sza : R) :
  In r ["NO2_photolysis"; "O3_to_O1D"; "CH2O_photolysis"] ->
  exists j jmax,
    calculateJValue r sza = JSNumber j /\
    calculateJValue r 0 = JSNumber jmax /\
    0 <= j <= jmax /\
    own_property [("NO2_photolysis", 8e-3); ("O3_to_O1D", 3e-5);
                  ("CH2O_photolysis", 5e-5)] r = Some jmax.
Proof.
  intros Hr.
  destruct (calculateJValue_number r sza Hr) as (p & Hown & Hj0 & Hn & E).
  exists (j0 p * Math_pow (Rmax 0 (cos (sza * PI / 180))) (n p)), (j0 p).
  split; [exact E|]. split.
  - rewrite (calculateJValue_own r 0 p Hown), cosSza_0, Math_pow_one.
    f_equal. ring.
  - split; [apply J_unit; lra|].
    destruct Hr as [<-|[<-|[<-|[]]]]; cbn in Hown; injection Hown as <-;
      reflexivity.
Qed.

(** The theorem for NO2 photolysis at 45 degrees. *)
Lemma J_value_bounds_witness :
  In "NO2_photolysis" ["NO2_photolysis"; "O3_to_O1D"; "CH2O_photolysis"] /\
  exists j jmax,
    calculateJValue "NO2_photolysis" 45 = JSNumber j /\
    calculateJValue "NO2_photolysis" 0 = JSNumber jmax /\
    0 <= j <= jmax /\
    own_property [("NO2_photolysis", 8e-3); ("O3_to_O1D", 3e-5);
                  ("CH2O_photolysis", 5e-5)] "NO2_photolysis" = Some jmax.
Proof.
  assert (H : In "NO2_photolysis"
                ["NO2_photolysis"; "O3_to_O1D"; "CH2O_photolysis"])
    by (cbn [In]; tauto).
  split; [exact H|].
  apply (J_value_bounds "NO2_photolysis" 45 H).
Defined.

(** X4.  [calculateJValue] is even in the angle, for every reaction name:
    [sza] and [- sza] give the same value. *)
Theorem J_value_even (reaction : string) (sza : R) :
  calculateJValue reaction (- sza) = calculateJValue reaction sza.
Proof.
  unfold calculateJValue. cbv zeta. rewrite cosSza_even. reflexivity.
Qed.

(** ** The rate constants at [T = 0] *)

(** X21.  [arrhenius] at [T = 0] divides by zero: for a positive pre-factor
    it returns [Infinity] when [Ea < 0], 0 when [Ea > 0] and [NaN] when
    [Ea = 0]. *)
Theorem arrhenius_zero_temperature (A Ea : R) :
  0 < A ->
  (Ea < 0 -> Ext.arrhenius A Ea 0 = Ext.PInf) /\
  (0 < Ea -> Ext.arrhenius A Ea 0 = Ext.Fin 0) /\
  (Ea = 0 -> Ext.arrhenius A Ea 0 = Ext.NaN).
Proof.
  intros HA. destruct (arrhenius_at_zero A Ea HA) as (H1 & H2 & H3).
  split; [exact H1|]. split; [|exact H3].
  intros HE. rewrite (H2 HE). f_equal. ring.
Qed.

(** The theorem for CH4 + OH, whose [Ea] is -1775. *)
Lemma arrhenius_zero_temperature_witness :
  0 < 2.45e-12 /\ Ext.arrhenius 2.45e-12 (-1775) 0 = Ext.PInf.
Proof.
  split; [lra|].
  apply (proj1 (arrhenius_zero_temperature 2.45e-12 (-1775) ltac:(lra))).
  lra.
Defined.

(** X22.  [getRateConstant] at [T = 0]: the rate constants of CH4 + OH and
    HO2 + NO are [Infinity]; those of CO + OH and NO2 + OH, whose
    [arrhenius] is [NaN], come back as 0 through [|| 0], and so does that
    of NO + O3, which is 0. *)
Theorem rate_constants_at_zero_temperature (P sza : R) :
  Ext.getRateConstant "CH4_OH" 0 P sza = Ext.VNum Ext.PInf /\
  Ext.getRateConstant "HO2_NO" 0 P sza = Ext.VNum Ext.PInf /\
  Ext.getRateConstant "CO_OH" 0 P sza = Ext.VNum (Ext.Fin 0) /\
  Ext.getRateConstant "NO2_OH" 0 P sza = Ext.VNum (Ext.Fin 0) /\
  Ext.getRateConstant "NO_O3" 0 P sza = Ext.VNum (Ext.Fin 0).
Proof.
  unfold Ext.getRateConstant.
  change (Ext.get_property (Ext.rates 0 P sza) "CH4_OH")
    with (Ext.VNum (Ext.arrhenius 2.45e-12 (-1775) 0)).
  change (Ext.get_property (Ext.rates 0 P sza) "HO2_NO")
    with (Ext.VNum (Ext.arrhenius 3.5e-12 (-250) 0)).
  change (Ext.get_property (Ext.rates 0 P sza) "CO_OH")
    with (Ext.VNum (Ext.mul (Ext.arrhenius 1.5e-13 0 0)
                      (Ext.Fin (1 + 0.6 * P / 1013)))).
  change (Ext.get_property (Ext.rates 0 P sza) "NO2_OH")
    with (Ext.VNum (Ext.arrhenius 1.2e-11 0 0)).
  change (Ext.get_property (Ext.rates 0 P sza) "NO_O3")
    with (Ext.VNum (Ext.arrhenius 3.0e-12 1500 0)).
  rewrite (proj1 (arrhenius_at_zero 2.45e-12 (-1775) ltac:(lra))) by lra.
  rewrite (proj1 (arrhenius_at_zero 3.5e-12 (-250) ltac:(lra))) by lra.
  rewrite (proj2 (proj2 (arrhenius_at_zero 1.5e-13 0 ltac:(lra)))) by reflexivity.
  rewrite (proj2 (proj2 (arrhenius_at_zero 1.2e-11 0 ltac:(lra)))) by reflexivity.
  rewrite (proj1 (proj2 (arrhenius_at_zero 3.0e-12 1500 ltac:(lra)))) by lra.
  repeat split; try reflexivity.
  unfold Ext.js_or, Ext.truthy.
  destruct (Req_dec_T (3.0e-12 * 0) 0) as [_|H]; [reflexivity|].
  exfalso. apply H. ring.
Qed.

(** ** The mechanism *)

Lemma rate_table_signs T P sza :
  0 < kCH4_OH (rate_table T P sza) /\
  0 < kNO_O3 (rate_table T P sza) /\
  0 < kHO2_NO (rate_table T P sza) /\
  kNO2_OH (rate_table T P sza) = 1.2e-11 /\
  kCH3O2_NO (rate_table T P sza) = 2.8e-12.
Proof.
  destruct (rate_table_values T P sza)
    as (E1 & E2 & _ & _ & _ & E6 & _ & E8 & E9 & _).
  rewrite E1, E2, E6, E8, E9, arrhenius_zero_Ea.
  repeat split; apply arrhenius_pos; lra.
Qed.

Lemma photolysis_off_at_night T P sza :
  90 <= sza <= 270 ->
  jCH2O (rate_table T P sza) = 0 /\ jNO2 (rate_table T P sza) = 0 /\
  jO3 (rate_table T P sza) = 0.
Proof.
  intros H.
  destruct (rate_table_values T P sza)
    as (_ & _ & _ & E4 & _ & _ & E7 & _ & _ & E10 & _).
  cbv beta in E4, E7, E10. rewrite E4, E7, E10, cosSza_night by exact H.
  rewrite !Math_pow_zero by lra. repeat split; ring.
Qed.



(** ** One step of the integrator *)



Lemma CH4_slope emissions (x : Vec) dt T P sza :
  slope dt T P sza emissions x CH4
  = - kCH4_OH (rate_table T P sza) * x CH4 * x OH + em_CH4 emissions / 86400.
Proof.
  unfold slope. rewrite addEmissions_at, calculateRates_mechanism.
  reflexivity.
Qed.

(** In finite arithmetic every CH4 slope without emission is [<= 0]. *)
Lemma CH4_finite_step (c : Vec) (dt T P sza : R) (emissions : Emissions) :
  nonneg c -> 0 <= dt -> em_CH4 emissions = 0 ->
  rk4Step c dt T P sza emissions CH4 <= c CH4.
Proof.
  intros Hc Hdt He.
  rewrite rk4Step_stages, !CH4_slope, He.
  destruct (rate_table_signs T P sza) as (K1 & _).
  set (k := kCH4_OH (rate_table T P sza)) in *.
  assert (Q : forall x : Vec, nonneg x -> 0 <= k * x CH4 * x OH)
    by (intros x Hx; repeat apply Rmult_le_pos; try apply Hx; lra).
  pose proof (Q c Hc) as N1.
  pose proof (Q _ (stage_nonneg c (0.5 * dt) (slope dt T P sza emissions c))) as N2.
  pose proof (Q _ (stage_nonneg c (0.5 * dt)
     (slope dt T P sza emissions (stage2 c dt T P sza emissions)))) as N3.
  pose proof (Q _ (stage_nonneg c dt
     (slope dt T P sza emissions (stage3 c dt T P sza emissions)))) as N4.
  fold (stage2 c dt T P sza emissions) in N2.
  fold (stage3 c dt T P sza emissions) in N3.
  fold (stage4 c dt T P sza emissions) in N4.
  pose proof (Hc CH4).
  apply Rmax_lub; [assumption|].
  set (a1 := k * c CH4 * c OH) in *.
  set (a2 := k * stage2 c dt T P sza emissions CH4 * stage2 c dt T P sza emissions OH) in *.
  set (a3 := k * stage3 c dt T P sza emissions CH4 * stage3 c dt T P sza emissions OH) in *.
  set (a4 := k * stage4 c dt T P sza emissions CH4 * stage4 c dt T P sza emissions OH) in *.
  assert (0 <= dt / 6 * (a1 + 2 * a2 + 2 * a3 + a4))
    by (apply Rmult_le_pos; lra).
  match goal with
  | |- c CH4 + ?X <= _ =>
      replace X with (- (dt / 6 * (a1 + 2 * a2 + 2 * a3 + a4)))
        by (unfold a1, a2, a3, a4, Rdiv; ring)
  end.
  lra.
Qed.



(** ** The simulation clock *)

Lemma stepSimulation_state dt w :
  state (stepSimulation dt w)
  = updateDiurnalCycle
      (set_time
         (set_concentrations (state w)
            (rk4Step (concentrations (state w)) dt (temperature (state w))
               (pressure (state w)) (solarZenithAngle (state w))
               (emissions (state w))))
         (time (state w) + dt))
  /\ lastUpdateTime (stepSimulation dt w) = lastUpdateTime w
  /\ simSpeedFactor (stepSimulation dt w) = simSpeedFactor w
  /\ animationFrameId (stepSimulation dt w) = animationFrameId w.
Proof.
  unfold stepSimulation. cbv zeta.
  destruct (Nat.eqb _ _ || Rgeb _ _)%bool; repeat split.
Qed.

Lemma updateDiurnalCycle_environment s :
  temperature (updateDiurnalCycle s) = temperature s /\
  pressure (updateDiurnalCycle s) = pressure s /\
  emissions (updateDiurnalCycle s) = emissions s /\
  isRunning (updateDiurnalCycle s) = isRunning s /\
  diurnalCycle (updateDiurnalCycle s) = diurnalCycle s /\
  noxLevel (updateDiurnalCycle s) = noxLevel s /\
  (diurnalCycle s = false -> solarZenithAngle (updateDiurnalCycle s)
                            = solarZenithAngle s).
Proof.
  unfold updateDiurnalCycle. destruct (diurnalCycle s) eqn:D; cbn [negb];
    repeat split; intros; try reflexivity; try discriminate.
  all: cbn [diurnalCycle set_solarZenithAngle]; exact D.
Qed.

Lemma stepSimulation_environment dt w :
  temperature (state (stepSimulation dt w)) = temperature (state w) /\
  pressure (state (stepSimulation dt w)) = pressure (state w) /\
  emissions (state (stepSimulation dt w)) = emissions (state w) /\
  isRunning (state (stepSimulation dt w)) = isRunning (state w) /\
  diurnalCycle (state (stepSimulation dt w)) = diurnalCycle (state w) /\
  noxLevel (state (stepSimulation dt w)) = noxLevel (state w) /\
  (diurnalCycle (state w) = false ->
   solarZenithAngle (state (stepSimulation dt w)) = solarZenithAngle (state w)).
Proof.
  destruct (stepSimulation_state dt w) as (E & _). rewrite E.
  match goal with
  | |- context [updateDiurnalCycle ?s] =>
      destruct (updateDiurnalCycle_environment s)
        as (E1 & E2 & E3 & E4 & E5 & E6 & E7)
  end.
  rewrite E1, E2, E3, E4, E5, E6. repeat split. exact E7.
Qed.

Lemma steps_effect (numSteps : nat) (dt : R) (w : World) :
  let w' := steps numSteps dt w in
  time (state w') = time (state w) + INR numSteps * dt /\
  temperature (state w') = temperature (state w) /\
  pressure (state w') = pressure (state w) /\
  emissions (state w') = emissions (state w) /\
  isRunning (state w') = isRunning (state w) /\
  diurnalCycle (state w') = diurnalCycle (state w) /\
  timeStepSize w' = timeStepSize w /\
  (diurnalCycle (state w) = false ->
   solarZenithAngle (state w') = solarZenithAngle (state w)).
Proof.
  induction numSteps as [|i IH].
  - cbn [steps INR]. repeat split; try reflexivity. lra.
  - cbv zeta in *. rewrite steps_succ.
    destruct IH as (I1 & I2 & I3 & I4 & I5 & I6 & I7 & I8).
    destruct (stepSimulation_effect dt (steps i dt w)) as (T1 & T2 & _).
    destruct (stepSimulation_environment dt (steps i dt w))
      as (E1 & E2 & E3 & E4 & E5 & E6 & E7).
    rewrite T1, T2, E1, E2, E3, E4, E5, I1, I2, I3, I4, I5, I6, I7, S_INR.
    repeat split; try reflexivity; try lra.
    intros Hd. rewrite E7 by (rewrite I6; exact Hd). apply I8. exact Hd.
Qed.

(** X11.  The loop of [runSimulation]: [numSteps] calls of
    [stepSimulation(dt)] with [dt >= 0] never move the simulated time
    backwards, and for every [dt] they leave temperature, pressure,
    emissions, the running flag, the diurnal switch and the step size as
    they were; with the diurnal cycle switched off they leave the solar
    zenith angle too. *)
Theorem steps_advance (numSteps : nat) (dt : R) (w : World) :
  let w' := steps numSteps dt w in
  (0 <= dt -> time (state w) <= time (state w')) /\
  temperature (state w') = temperature (state w) /\
  pressure (state w') = pressure (state w) /\
  emissions (state w') = emissions (state w) /\
  isRunning (state w') = isRunning (state w) /\
  diurnalCycle (state w') = diurnalCycle (state w) /\
  timeStepSize w' = timeStepSize w /\
  (diurnalCycle (state w) = false ->
   solarZenithAngle (state w') = solarZenithAngle (state w)).
Proof.
  destruct (steps_effect numSteps dt w)
    as (E1 & E2 & E3 & E4 & E5 & E6 & E7 & E8).
  cbv zeta in *. rewrite E1.
  repeat split; try assumption.
  intros Hdt. pose proof (pos_INR numSteps). nra.
Qed.

Lemma runSimulation_steps currentTime frame w :
  isRunning (state w) = true ->
  runSimulation currentTime frame w
  = set_animationFrameId
      (steps (Z.to_nat (Z.max 1 (Math_floor
                ((currentTime - lastUpdateTime w) / 1000 * simSpeedFactor w
                 / timeStepSize w))))
         (timeStepSize w) (set_lastUpdateTime w currentTime))
      (Some frame).
Proof. intros H. unfold runSimulation. rewrite H. reflexivity. Qed.

Lemma steps_lastUpdateTime numSteps dt w :
  lastUpdateTime (steps numSteps dt w) = lastUpdateTime w.
Proof.
  induction numSteps as [|i IH]; [reflexivity|].
  rewrite steps_succ.
  destruct (stepSimulation_state dt (steps i dt w)) as (_ & L & _).
  rewrite L. exact IH.
Qed.

(** X12.  [runSimulation]: a tick of a paused simulation changes nothing; a
    tick of a running one with a positive step size performs at least one
    step of that size, however little wall-clock time has elapsed, then
    stores the frame handle; it sets [lastUpdateTime] to the current time
    and does not move the simulated time backwards. *)
Theorem runSimulation_progress (currentTime : R) (frame : nat) (w : World) :
  (isRunning (state w) = false -> runSimulation currentTime frame w = w) /\
  (isRunning (state w) = true -> 0 < timeStepSize w ->
   let w' := runSimulation currentTime frame w in
   (exists numSteps : nat,
       (1 <= numSteps)%nat /\
       w' = set_animationFrameId
              (steps numSteps (timeStepSize w)
                 (set_lastUpdateTime w currentTime))
              (Some frame)) /\
   lastUpdateTime w' = currentTime /\
   animationFrameId w' = Some frame /\
   time (state w) <= time (state w')).
Proof.
  split.
  - intros H. unfold runSimulation. rewrite H. reflexivity.
  - intros H Hdt w'. unfold w'.
    rewrite (runSimulation_steps _ _ _ H).
    set (numSteps := Z.max 1 _).
    split.
    + exists (Z.to_nat numSteps). split; [unfold numSteps; lia|reflexivity].
    + cbn [state lastUpdateTime animationFrameId set_animationFrameId].
      destruct (steps_effect (Z.to_nat numSteps) (timeStepSize w)
                  (set_lastUpdateTime w currentTime)) as (E & _).
      cbn [state set_lastUpdateTime] in E. rewrite E, steps_lastUpdateTime.
      split; [reflexivity|]. split; [reflexivity|].
      pose proof (pos_INR (Z.to_nat numSteps)). nra.
Qed.

(** X13.  A late animation callback after [pauseSimulation] does nothing,
    [pauseSimulation] twice is [pauseSimulation] once, and
    [startSimulation] on a running simulation changes nothing. *)
Theorem pause_stops_the_clock (w : World) :
  (forall currentTime frame,
      runSimulation currentTime frame (pauseSimulation w) = pauseSimulation w) /\
  pauseSimulation (pauseSimulation w) = pauseSimulation w /\
  (forall now currentTime frame,
      isRunning (state w) = true ->
      startSimulation now currentTime frame w = w).
Proof.
  split; [|split].
  - intros currentTime frame.
    destruct (pauseSimulation_fields w) as (E & _).
    unfold runSimulation. cbv zeta in E. rewrite E. reflexivity.
  - destruct w as [s ts [id|] lu sf dt]; reflexivity.
  - intros now currentTime frame H. unfold startSimulation. rewrite H.
    reflexivity.
Qed.

(** The theorem at the loaded script once it has been started. *)
Lemma runSimulation_progress_witness :
  isRunning (state (set_state initial_world
                      (set_isRunning (state initial_world) true))) = true /\
  0 < timeStepSize (set_state initial_world
                      (set_isRunning (state initial_world) true)) /\
  lastUpdateTime
    (runSimulation 1000 1
       (set_state initial_world (set_isRunning (state initial_world) true)))
  = 1000.
Proof.
  assert (H : isRunning (state (set_state initial_world
                                  (set_isRunning (state initial_world) true)))
              = true) by reflexivity.
  assert (Hdt : 0 < timeStepSize
                      (set_state initial_world
                         (set_isRunning (state initial_world) true))).
  { cbn [timeStepSize set_state].
    destruct initial_world_clock as (_ & E). rewrite E. lra. }
  split; [exact H|]. split; [exact Hdt|].
  apply (proj2 (runSimulation_progress 1000 1
                  (set_state initial_world
                     (set_isRunning (state initial_world) true))) H Hdt).
Defined.

(** ** The time series *)

Lemma sample_due_dec (buffer : list R) (now dt : R) :
  (buffer = [] \/ now - last buffer 0 >= 10 * dt)
  \/ ~ (buffer = [] \/ now - last buffer 0 >= 10 * dt).
Proof.
  destruct buffer as [|a l]; [tauto|].
  destruct (Rge_dec (now - last (a :: l) 0) (10 * dt)); [tauto|].
  right. intros [H|H]; [discriminate H|contradiction].
Qed.

Lemma stepSimulation_aligned dt w :
  (forall sp, List.length (ts_concentrations (timeSeriesData w) sp)
              = List.length (ts_time (timeSeriesData w))) ->
  forall sp,
    List.length (ts_concentrations (timeSeriesData (stepSimulation dt w)) sp)
    = List.length (ts_time (timeSeriesData (stepSimulation dt w))).
Proof.
  intros H sp. destruct (stepSimulation_effect dt w) as (_ & _ & Hdue & Hnot).
  destruct (sample_due_dec (ts_time (timeSeriesData w))
              (time (state w) + dt) dt) as [D|D].
  - destruct (Hdue D) as [E1 E2]. rewrite E1, E2, !length_app, H. reflexivity.
  - rewrite (Hnot D). apply H.
Qed.

Lemma steps_aligned numSteps dt w :
  (forall sp, List.length (ts_concentrations (timeSeriesData w) sp)
              = List.length (ts_time (timeSeriesData w))) ->
  forall sp,
    List.length (ts_concentrations (timeSeriesData (steps numSteps dt w)) sp)
    = List.length (ts_time (timeSeriesData (steps numSteps dt w))).
Proof.
  revert w. induction numSteps as [|i IH]; intros w H; cbn [steps].
  - exact H.
  - apply IH. apply stepSimulation_aligned. exact H.
Qed.

Lemma runSimulation_aligned currentTime frame w :
  (forall sp, List.length (ts_concentrations (timeSeriesData w) sp)
              = List.length (ts_time (timeSeriesData w))) ->
  forall sp,
    List.length (ts_concentrations
                   (timeSeriesData (runSimulation currentTime frame w)) sp)
    = List.length (ts_time (timeSeriesData (runSimulation currentTime frame w))).
Proof.
  intros H. unfold runSimulation.
  destruct (negb (isRunning (state w))); [exact H|].
  cbv zeta. cbn [timeSeriesData set_animationFrameId].
  apply steps_aligned. exact H.
Qed.

Lemma initial_world_series sp :
  ts_concentrations (timeSeriesData initial_world) sp = [].
Proof.
  unfold initial_world.
  match goal with
  | |- context [initializeConcentrations "background" ?x] =>
      destruct (initializeConcentrations_fields "background" x) as (E & _)
  end.
  rewrite E. reflexivity.
Qed.

(** X14.  In every reachable world the array of each species in
    [timeSeriesData.concentrations] is as long as [timeSeriesData.time]:
    row [i] of the series exists for every species, which is what
    [exportToCSV] and [updateChart] read. *)
Theorem series_aligned (dmin : R) (w : World) :
  reachable dmin w ->
  forall sp, List.length (ts_concentrations (timeSeriesData w) sp)
             = List.length (ts_time (timeSeriesData w)).
Proof.
  induction 1 as [|now currentTime frame w _ IH Hd|currentTime frame w _ IH Hd
                  |w _ IH Hd|w _ IH|w _ IH|ev w _ IH]; intros sp.
  - rewrite initial_world_series, initial_world_buffer. reflexivity.
  - unfold startSimulation. destruct (isRunning (state w)); [apply IH|].
    cbv zeta. apply runSimulation_aligned. exact IH.
  - apply runSimulation_aligned. exact IH.
  - apply stepSimulation_aligned. exact IH.
  - destruct (pauseSimulation_fields w) as (_ & E1 & _). rewrite E1. apply IH.
  - destruct (resetSimulation_effect w) as (_ & _ & _ & _ & E2 & E3 & _).
    rewrite E2, E3. reflexivity.
  - rewrite handle_buffer. apply IH.
Qed.

(** The theorem after one step of the loaded script. *)
Lemma series_aligned_witness :
  reachable 60 (stepSimulation (timeStepSize initial_world) initial_world) /\
  forall sp,
    List.length (ts_concentrations
                   (timeSeriesData
                      (stepSimulation (timeStepSize initial_world) initial_world)) sp)
    = List.length (ts_time
                     (timeSeriesData
                        (stepSimulation (timeStepSize initial_world) initial_world))).
Proof.
  assert (E : timeStepSize initial_world = 60).
  { unfold initial_world.
    match goal with
    | |- context [initializeConcentrations "background" ?x] =>
        destruct (initializeConcentrations_fields "background" x)
          as (_ & _ & _ & _ & E & _)
    end.
    rewrite E. reflexivity. }
  assert (H : reachable 60 (stepSimulation (timeStepSize initial_world)
                              initial_world)).
  { apply reach_step; [apply reach_init|]. rewrite E. lra. }
  split; [exact H|].
  apply (series_aligned 60 _ H).
Defined.

Lemma sample_slack_cap dt w : sample_slack dt w <= 9 * dt.
Proof.
  unfold sample_slack. destruct (ts_time (timeSeriesData w)); [lra|].
  apply Rmin_r.
Qed.

Lemma stepSimulation_growth dt w :
  0 < dt ->
  let w' := stepSimulation dt w in
  (INR (List.length (ts_time (timeSeriesData w')))
   = INR (List.length (ts_time (timeSeriesData w))) + 1
   /\ sample_slack dt w = 9 * dt /\ sample_slack dt w' = 0)
  \/ (ts_time (timeSeriesData w') = ts_time (timeSeriesData w)
      /\ sample_slack dt w' <= sample_slack dt w + dt).
Proof.
  intros Hdt w'. unfold w'.
  destruct (stepSimulation_effect dt w) as (Et & _ & Hdue & Hnot).
  destruct (sample_due_dec (ts_time (timeSeriesData w))
              (time (state w) + dt) dt) as [D|D].
  - left. destruct (Hdue D) as [E _].
    split; [rewrite E, length_app, plus_INR; reflexivity|]. split.
    + unfold sample_slack.
      destruct (ts_time (timeSeriesData w)) as [|a l] eqn:B; [reflexivity|].
      destruct D as [D|D]; [discriminate D|]. apply Rmin_right. lra.
    + unfold sample_slack. rewrite E, Et.
      destruct (ts_time (timeSeriesData w) ++ [time (state w) + dt])%list
        as [|a l] eqn:B.
      * destruct (ts_time (timeSeriesData w)); discriminate B.
      * rewrite <- B, last_last. rewrite Rmin_left by lra. lra.
  - right. pose proof (Hnot D) as E. split; [rewrite E; reflexivity|].
    unfold sample_slack. rewrite E, Et.
    destruct (ts_time (timeSeriesData w)) as [|a l] eqn:B; [tauto|].
    assert (time (state w) + dt - last (a :: l) 0 < 10 * dt)
      by (apply Rnot_ge_lt; intros H; apply D; right; exact H).
    rewrite (Rmin_left (time (state w) - last (a :: l) 0)) by lra.
    apply Rle_trans with (1 := Rmin_l _ _). lra.
Qed.

Lemma steps_growth_slack numSteps dt w :
  0 < dt ->
  INR (List.length (ts_time (timeSeriesData w)))
  <= INR (List.length (ts_time (timeSeriesData (steps numSteps dt w))))
  /\ 10 * dt * (INR (List.length (ts_time (timeSeriesData (steps numSteps dt w))))
                - INR (List.length (ts_time (timeSeriesData w))))
     <= Rmax 0 (INR numSteps * dt + sample_slack dt w).
Proof.
  intros Hdt. revert w. induction numSteps as [|i IH]; intros w.
  - cbn [steps]. split; [lra|].
    apply Rle_trans with (2 := Rmax_l _ _). lra.
  - cbn [steps]. destruct (IH (stepSimulation dt w)) as [I1 I2].
    rewrite S_INR.
    destruct (stepSimulation_growth dt w Hdt) as [(L & S0 & S1)|(L & S1)].
    + rewrite S1 in I2. rewrite L in I1, I2. split; [lra|].
      apply Rle_trans with (2 := Rmax_r _ _).
      assert (Rmax 0 (INR i * dt + 0) = INR i * dt).
      { rewrite Rmax_right; [lra|]. pose proof (pos_INR i). nra. }
      nra.
    + rewrite L in I1, I2. split; [exact I1|].
      apply Rle_trans with (1 := I2). apply Rle_max_compat_l. lra.
Qed.

(** X15.  [stepSimulation] thins the record: for a positive step size,
    [numSteps] steps from any state append at most one sample per ten
    steps, [10 * added <= numSteps + 9], and never remove one. *)
Theorem steps_buffer_growth (numSteps : nat) (dt : R) (w : World) :
  0 < dt ->
  (List.length (ts_time (timeSeriesData w))
   <= List.length (ts_time (timeSeriesData (steps numSteps dt w))))%nat /\
  (10 * List.length (ts_time (timeSeriesData (steps numSteps dt w)))
   <= 10 * List.length (ts_time (timeSeriesData w)) + numSteps + 9)%nat.
Proof.
  intros Hdt. destruct (steps_growth_slack numSteps dt w Hdt) as [H1 H2].
  pose proof (sample_slack_cap dt w) as Hs.
  split; [apply INR_le; exact H1|].
  apply INR_le. rewrite !plus_INR, !mult_INR.
  replace (INR 10) with 10 by (rewrite INR_IZR_INZ; reflexivity).
  replace (INR 9) with 9 by (rewrite INR_IZR_INZ; reflexivity).
  pose proof (pos_INR numSteps) as Hn.
  assert (H3 : Rmax 0 (INR numSteps * dt + sample_slack dt w)
               <= (INR numSteps + 9) * dt) by (apply Rmax_lub; nra).
  set (a := INR (List.length (ts_time (timeSeriesData (steps numSteps dt w))))) in *.
  set (b := INR (List.length (ts_time (timeSeriesData w)))) in *.
  assert (H4 : dt * (10 * (a - b)) <= dt * (INR numSteps + 9)) by lra.
  apply Rmult_le_reg_l in H4; [lra|exact Hdt].
Qed.

(** The theorem for 25 steps of 60 s from the loaded script. *)
Lemma steps_buffer_growth_witness :
  0 < 60 /\
  (10 * List.length (ts_time (timeSeriesData (steps 25 60 initial_world)))
   <= 10 * List.length (ts_time (timeSeriesData initial_world)) + 25 + 9)%nat.
Proof.
  split; [lra|].
  apply (proj2 (steps_buffer_growth 25 60 initial_world ltac:(lra))).
Defined.

(** ** The diurnal cycle *)

Lemma trunc_nonneg x : 0 <= x -> trunc x = Int_part x.
Proof. intros H. unfold trunc. destruct (Rle_dec 0 x); [reflexivity|contradiction]. Qed.

Lemma hours_of_day a :
  0 <= a ->
  js_rem a 24 = a - 24 * IZR (Int_part (a / 24)) /\ 0 <= js_rem a 24 < 24.
Proof.
  intros Ha. unfold js_rem. rewrite trunc_nonneg by lra.
  split; [reflexivity|].
  destruct (base_Int_part (a / 24)) as [H1 H2]. lra.
Qed.

Lemma hours_zero_iff a :
  0 <= a -> (js_rem a 24 = 0 <-> exists k : Z, a = 24 * IZR k).
Proof.
  intros Ha. destruct (hours_of_day a Ha) as [E _]. split.
  - intros H. exists (Int_part (a / 24)). lra.
  - intros [k Hk]. rewrite E.
    assert (Hq : k = Int_part (a / 24)) by (apply Int_part_spec; lra).
    rewrite <- Hq. lra.
Qed.

Lemma updateDiurnalCycle_angle s :
  diurnalCycle s = true ->
  solarZenithAngle (updateDiurnalCycle s)
  = Rmin 90 (Rabs (12 - js_rem (time s / 3600) 24) * 7.5).
Proof. intros H. unfold updateDiurnalCycle. rewrite H. reflexivity. Qed.

Lemma angle_of_hours h :
  0 <= h < 24 ->
  Rmin 90 (Rabs (12 - h) * 7.5) = Rabs (12 - h) * 7.5 /\
  0 <= Rabs (12 - h) * 7.5 <= 90 /\
  (Rabs (12 - h) * 7.5 = 90 <-> h = 0).
Proof.
  intros Hh.
  assert (A : 0 <= Rabs (12 - h) <= 12).
  { split; [apply Rabs_pos|]. apply Rabs_le. lra. }
  split; [apply Rmin_right; lra|]. split; [lra|].
  split.
  - intros H. assert (E : Rabs (12 - h) = 12) by lra.
    unfold Rabs in E. destruct (Rcase_abs (12 - h)); lra.
  - intros ->. rewrite Rminus_0_r, Rabs_right by lra. lra.
Qed.

(** X16.  [updateDiurnalCycle] with the diurnal cycle on and a simulated
    time [>= 0]: the solar zenith angle it stores lies in [0, 90], and it
    is 90 only when the time is a whole number of days (86400 s);
    [isDaytime], the test of [updateUI], is therefore false at those
    instants only. *)
Theorem diurnal_sun_sets_at_midnight_only (s : State) :
  diurnalCycle s = true -> 0 <= time s ->
  let s' := updateDiurnalCycle s in
  0 <= solarZenithAngle s' <= 90 /\
  (solarZenithAngle s' = 90 <-> exists k : Z, time s = 86400 * IZR k) /\
  (isDaytime s' = false <-> exists k : Z, time s = 86400 * IZR k).
Proof.
  intros Hd Ht s'. unfold s'. rewrite (updateDiurnalCycle_angle s Hd).
  assert (Ha : 0 <= time s / 3600) by lra.
  destruct (hours_of_day _ Ha) as [_ Hh].
  destruct (angle_of_hours _ Hh) as (E & B & Z0).
  assert (M : js_rem (time s / 3600) 24 = 0
              <-> exists k : Z, time s = 86400 * IZR k).
  { rewrite (hours_zero_iff _ Ha). split; intros [k Hk]; exists k; lra. }
  assert (N : solarZenithAngle s' = 90 <-> exists k : Z, time s = 86400 * IZR k).
  { unfold s'. rewrite (updateDiurnalCycle_angle s Hd), E, Z0. exact M. }
  rewrite E. split; [exact B|]. split; [rewrite Z0; exact M|].
  rewrite <- N. unfold isDaytime. fold s'.
  assert (Hb : solarZenithAngle s' <= 90)
    by (unfold s'; rewrite (updateDiurnalCycle_angle s Hd), E; lra).
  destruct (Rlt_dec (solarZenithAngle s') 90); split; intros H;
    try discriminate; try reflexivity; lra.
Qed.

(** The theorem at six in the morning. *)
Lemma diurnal_sun_sets_at_midnight_only_witness :
  let s := mkState preset_background 21600 298 1000 0 false true
                   {| em_CH4 := 10; em_CO := 5 |} 1.0 in
  diurnalCycle s = true /\ 0 <= time s /\
  0 <= solarZenithAngle (updateDiurnalCycle s) <= 90.
Proof.
  intros s.
  assert (Hd : diurnalCycle s = true) by reflexivity.
  assert (Ht : 0 <= time s) by (cbn [time s]; lra).
  split; [exact Hd|]. split; [exact Ht|].
  apply (proj1 (diurnal_sun_sets_at_midnight_only s Hd Ht)).
Defined.

(** X17.  [updateDiurnalCycle] with the diurnal cycle on: during the first
    day ([0 <= time < 86400]) the angle is [7.5 * |12 - time / 3600|], a
    triangle that is 0 at noon (43200 s). *)
Theorem diurnal_triangle (s : State) :
  diurnalCycle s = true -> 0 <= time s ->
  (time s < 86400 ->
   solarZenithAngle (updateDiurnalCycle s) = Rabs (12 - time s / 3600) * 7.5) /\
  (time s = 43200 -> solarZenithAngle (updateDiurnalCycle s) = 0).
Proof.
  intros Hd Ht.
  assert (F : time s < 86400 ->
              solarZenithAngle (updateDiurnalCycle s)
              = Rabs (12 - time s / 3600) * 7.5).
  { intros Hlt. rewrite (updateDiurnalCycle_angle s Hd).
    assert (Ha : 0 <= time s / 3600) by lra.
    destruct (hours_of_day _ Ha) as [E _].
    assert (Hq : 0%Z = Int_part (time s / 3600 / 24))
      by (apply Int_part_spec; lra).
    rewrite <- Hq in E. rewrite E.
    replace (time s / 3600 - 24 * 0) with (time s / 3600) by lra.
    apply angle_of_hours. lra. }
  split; [exact F|].
  intros E. rewrite F by lra. rewrite E.
  replace (12 - 43200 / 3600) with 0 by lra. rewrite Rabs_R0. lra.
Qed.

(** The theorem at noon. *)
Lemma diurnal_triangle_witness :
  let s := mkState preset_background 43200 298 1000 0 false true
                   {| em_CH4 := 10; em_CO := 5 |} 1.0 in
  diurnalCycle s = true /\ 0 <= time s /\
  solarZenithAngle (updateDiurnalCycle s) = 0.
Proof.
  intros s.
  assert (Hd : diurnalCycle s = true) by reflexivity.
  assert (Ht : 0 <= time s) by (cbn [time s]; lra).
  split; [exact Hd|]. split; [exact Ht|].
  apply (proj2 (diurnal_triangle s Hd Ht)). reflexivity.
Defined.

(** ** Presets and controls *)

(** X18.  [initializeConcentrations]: each of the three preset names loads
    its ten literal values, whatever the concentrations were, and a name
    that is no key of [presets] (and that object literals do not inherit)
    loads the background values; the simulated time, the solar zenith
    angle, the running flag, the step size and the recorded time series
    are left as they are. *)
Theorem initializeConcentrations_loads (preset : string) (w : World) :
  let w' := initializeConcentrations preset w in
  (preset = "background" ->
   forall sp, concentrations (state w') sp = preset_background sp) /\
  (preset = "polluted" ->
   forall sp, concentrations (state w') sp = preset_polluted sp) /\
  (preset = "clean" ->
   forall sp, concentrations (state w') sp = preset_clean sp) /\
  (own_property presets preset = None -> inherited preset = false ->
   forall sp, concentrations (state w') sp = preset_background sp) /\
  time (state w') = time (state w) /\
  solarZenithAngle (state w') = solarZenithAngle (state w) /\
  isRunning (state w') = isRunning (state w) /\
  timeStepSize w' = timeStepSize w /\
  timeSeriesData w' = timeSeriesData w.
Proof.
  intros w'. unfold w'.
  destruct (initializeConcentrations_fields preset w)
    as (E1 & _ & _ & _ & E5 & E6 & E7 & E8).
  cbv zeta in *. rewrite E1, E5, E6, E7, E8.
  split; [|split; [|split; [|split]]]; try (repeat split; reflexivity).
  - intros ->. apply initializeConcentrations_values. reflexivity.
  - intros ->. apply initializeConcentrations_values. reflexivity.
  - intros ->. apply initializeConcentrations_values. reflexivity.
  - intros Hnone _ sp. unfold initializeConcentrations. rewrite Hnone.
    apply assign_loop_values. apply SPECIES_keys_complete.
Qed.

Lemma steps_solarZenithAngle numSteps dt w :
  diurnalCycle (state w) = false ->
  solarZenithAngle (state (steps numSteps dt w)) = solarZenithAngle (state w).
Proof. intros H. apply (steps_effect numSteps dt w). exact H. Qed.

(** X19.  The solar-zenith slider: with the diurnal cycle off, the angle it
    sets is the angle every later step uses and keeps; with the diurnal
    cycle on, the slider changes nothing. *)
Theorem solar_zenith_slider (v : R) (w : World) :
  (diurnalCycle (state w) = false ->
   forall numSteps dt,
     solarZenithAngle (state (steps numSteps dt (handle (SetSolarZenith v) w)))
     = v) /\
  (diurnalCycle (state w) = true -> handle (SetSolarZenith v) w = w).
Proof.
  split; intros H.
  - intros numSteps dt.
    assert (E : handle (SetSolarZenith v) w
                = set_state w (set_solarZenithAngle (state w) v))
      by (cbn [handle]; rewrite H; reflexivity).
    rewrite E. rewrite steps_solarZenithAngle; [reflexivity|exact H].
  - cbn [handle]. rewrite H. reflexivity.
Qed.

(** ** The network diagram *)

Lemma ln_10_pos : 0 < ln 10.
Proof. rewrite <- ln_1. apply ln_increasing; lra. Qed.

Lemma Math_log10_power (k : nat) : Math_log10 (10 ^ k) = INR k.
Proof.
  unfold Math_log10. rewrite ln_pow by lra.
  pose proof ln_10_pos. field. lra.
Qed.

Lemma Math_log10_le x y : 0 < x -> x <= y -> Math_log10 x <= Math_log10 y.
Proof.
  intros Hx Hxy. unfold Math_log10. pose proof ln_10_pos as H10.
  apply Rmult_le_compat_r; [left; apply Rinv_0_lt_compat; exact H10|].
  destruct Hxy as [Hlt| ->]; [left; apply ln_increasing; assumption|lra].
Qed.

(** X20.  [updateNetworkVisualization]: for a concentration above -1 (the
    logarithm is taken of the concentration plus 1) the radius of a species
    node lies between 15 and 30; it does not shrink when a non-negative
    concentration grows; it is the floor value 15 for every concentration
    from 0 to 999 ppb and the cap 30 from 999999 ppb on. *)
Theorem nodeSize_range (s : State) (sp : Species) :
  (-1 < concentrations s sp -> 15 <= nodeSize s sp <= 30) /\
  (0 <= concentrations s sp <= 999 -> nodeSize s sp = 15) /\
  (999999 <= concentrations s sp -> nodeSize s sp = 30) /\
  (forall s' : State,
      0 <= concentrations s sp <= concentrations s' sp ->
      nodeSize s sp <= nodeSize s' sp).
Proof.
  unfold nodeSize. cbv zeta.
  split; [|split; [|split]].
  - intros _. split; [apply Rmax_l|]. apply Rmax_lub; [lra|apply Rmin_l].
  - intros [H0 H1].
    assert (L : Math_log10 (concentrations s sp + 1) <= 3).
    { replace 3 with (INR 3) by (cbn [INR]; lra).
      rewrite <- Math_log10_power. apply Math_log10_le; lra. }
    apply Rmax_left. apply Rle_trans with (1 := Rmin_r _ _). lra.
  - intros H.
    assert (L : 6 <= Math_log10 (concentrations s sp + 1)).
    { replace 6 with (INR 6) by (cbn [INR]; lra).
      rewrite <- Math_log10_power. apply Math_log10_le; lra. }
    rewrite Rmin_left by lra. apply Rmax_right. lra.
  - intros s' [H0 H1].
    assert (L : Math_log10 (concentrations s sp + 1)
                <= Math_log10 (concentrations s' sp + 1))
      by (apply Math_log10_le; lra).
    apply Rle_max_compat_l. apply Rle_min_compat_l. lra.
Qed.

(** The theorem at the background preset: the node of CO2 (400000 ppb). *)
Lemma nodeSize_range_witness :
  let s := mkState preset_background 0 298 1000 0 false true
                   {| em_CH4 := 10; em_CO := 5 |} 1.0 in
  -1 < concentrations s CO2 /\ 15 <= nodeSize s CO2 <= 30.
Proof.
  intros s.
  assert (H : -1 < concentrations s CO2)
    by (cbn [concentrations s]; unfold preset_background; lra).
  split; [exact H|].
  apply (proj1 (nodeSize_range s CO2) H).
Defined.
